(** * hieroglyph: optical-model potential parameters

    A shallow embedding of [hieroglyph/potentials.py] and the properties of
    its five potential formulas and of [create_parameters].

    The Python code is arithmetic on [float] written into a [dict].  The
    formulas are embedded once, over an abstract arithmetic ([Arith]): the
    carrier of numbers, the decimal literals and the operations the source
    uses, each operation that can raise in Python returning a [result].
    Properties of the data flow (which keys are written, what a formula reads,
    which error is raised) are proved for every arithmetic.  Properties of the
    values as functions of the energy (identities, continuity) are proved in
    the instance [Exact], where numbers are real numbers and the operations
    are the exact ones, without rounding or overflow.  The instance
    [Binary64] is the arithmetic of CPython's [float]; there the formulas
    are evaluated at concrete inputs, which shows where rounding or
    overflow separates the code from the exact values. *)

From Stdlib Require Import Reals Lra Lia QArith Qreals ZArith.
From Stdlib Require Floats.
From stdpp Require Import gmap strings.

Set Default Proof Using "Type".

(** ** Outcomes of Python evaluation *)

(** The exceptions the module can raise: the bare [Exception] of
    [create_parameters] with its message, and the built-in arithmetic and
    lookup errors.  [NotReal] is not a Python exception: it marks a power of
    a negative base to a fractional exponent, which Python evaluates to a
    [complex]; complex values are outside this development. *)
Inductive exn : Type :=
  | Exception (msg : string)
  | ZeroDivisionError
  | ValueError
  | OverflowError
  | KeyError (key : string)
  | NotReal.

Inductive result (A : Type) : Type :=
  | Ok (a : A)
  | Raise (e : exn).
Arguments Ok {A} a.
Arguments Raise {A} e.

Definition is_ok {A} (r : result A) : bool :=
  match r with Ok _ => true | Raise _ => false end.

(** The exceptions of the interpreter itself, as opposed to the one the
    module raises with [raise Exception(...)]. *)
Definition builtin (e : exn) : Prop :=
  match e with Exception _ => False | _ => True end.

Definition raises_builtin {A} (r : result A) : Prop :=
  ∀ e, r = Raise e → builtin e.

(** ** The arithmetic of the source *)

(** [lit] is the value of a decimal literal of the source, given as the
    rational it denotes; [of_int] is the conversion of a Python [int] operand
    of a mixed operation.  [f_div], [f_pow], [f_exp] and [f_sqrt] are
    Python's [/], [**], [math.exp] and [math.sqrt] on floats, which may
    raise, but never a bare [Exception]; [f_gt] is [>]. *)
Class Arith : Type := {
  num : Type;
  lit : Q -> num;
  of_int : Z -> result num;
  f_add : num -> num -> num;
  f_sub : num -> num -> num;
  f_mul : num -> num -> num;
  f_div : num -> num -> result num;
  f_pow : num -> num -> result num;
  f_exp : num -> result num;
  f_sqrt : num -> result num;
  f_gt : num -> num -> bool;
  of_int_raises : ∀ z, raises_builtin (of_int z);
  f_div_raises : ∀ x y, raises_builtin (f_div x y);
  f_pow_raises : ∀ x y, raises_builtin (f_pow x y);
  f_exp_raises : ∀ x, raises_builtin (f_exp x);
  f_sqrt_raises : ∀ x, raises_builtin (f_sqrt x)
}.

(** ** Expressions and statements *)

(** The [params] dictionary of the source. *)
Abbreviation Dict := (gmap string num).

Section Embedding.
Context {A : Arith}.

(** An expression is evaluated in the current contents of [params]; it
    yields a number or raises. *)
Definition expr : Type := Dict -> result num.
Definition cond : Type := Dict -> result bool.

Definition e_lit (q : Q) : expr := fun _ => Ok (lit q).
Definition e_num (x : num) : expr := fun _ => Ok x.
Definition e_int (z : Z) : expr := fun _ => of_int z.

(** Binary operators evaluate the left operand, then the right one, then
    apply the operation; the first exception met is the one raised. *)
Definition lift2 {B} (op : num -> num -> result B) (a b : expr)
  : Dict -> result B :=
  fun d =>
    match a d with
    | Ok x => match b d with
              | Ok y => op x y
              | Raise e => Raise e
              end
    | Raise e => Raise e
    end.

Definition e_add : expr -> expr -> expr := lift2 (fun x y => Ok (f_add x y)).
Definition e_sub : expr -> expr -> expr := lift2 (fun x y => Ok (f_sub x y)).
Definition e_mul : expr -> expr -> expr := lift2 (fun x y => Ok (f_mul x y)).
Definition e_div : expr -> expr -> expr := lift2 f_div.
Definition e_pow : expr -> expr -> expr := lift2 f_pow.
Definition e_gt : expr -> expr -> cond := lift2 (fun x y => Ok (f_gt x y)).

Definition lift1 (op : num -> result num) (a : expr) : expr :=
  fun d => match a d with Ok x => op x | Raise e => Raise e end.

Definition math_exp : expr -> expr := lift1 f_exp.
Definition math_sqrt : expr -> expr := lift1 f_sqrt.

(** [a if c else b]: the condition first, then the chosen operand only. *)
Definition if_else (a : expr) (c : cond) (b : expr) : expr :=
  fun d =>
    match c d with
    | Ok true => a d
    | Ok false => b d
    | Raise e => Raise e
    end.

(** [params[key]] read: [KeyError] when the key is absent. *)
Definition getitem (key : string) : expr :=
  fun d => match d !! key with Some v => Ok v | None => Raise (KeyError key) end.

(** A statement transforms [params] in place; what it wrote before an
    exception stays written. *)
Definition M (B : Type) : Type := Dict -> Dict * result B.

Definition ret {B} (b : B) : M B := fun d => (d, Ok b).

Definition bind {B C} (m : M B) (f : B -> M C) : M C :=
  fun d =>
    match m d with
    | (d', Ok b) => f b d'
    | (d', Raise e) => (d', Raise e)
    end.

(** [name = e]: the value of a local variable. *)
Definition eval (e : expr) : M num := fun d => (d, e d).

(** [params[key] = e]: the right-hand side first, then the store. *)
Definition setitem (key : string) (e : expr) : M unit :=
  fun d =>
    match e d with
    | Ok v => (<[key := v]> d, Ok tt)
    | Raise x => (d, Raise x)
    end.

End Embedding.

#[warnings="-uniform-inheritance"] Coercion e_lit : Q >-> expr.
#[warnings="-uniform-inheritance"] Coercion e_num : num >-> expr.
#[warnings="-uniform-inheritance"] Coercion e_int : Z >-> expr.

Declare Scope py_scope.
Delimit Scope py_scope with py.
Bind Scope py_scope with expr.

Notation "x + y" := (e_add x y) : py_scope.
Notation "x - y" := (e_sub x y) : py_scope.
Notation "x * y" := (e_mul x y) : py_scope.
Notation "x / y" := (e_div x y) : py_scope.
Notation "x ** y" := (e_pow x y) (at level 30, right associativity) : py_scope.
Notation "x > y" := (e_gt x y) : py_scope.
#[warnings="-closed-notation-not-level-0"]
Notation "'params[' k ]" := (getitem k) (at level 1, k at level 0) : py_scope.
Notation "'params[' k ] ::= e" := (setitem k e%py)
  (at level 1, k at level 0, e at level 69) : py_scope.
Notation "'var' x ::= e ; k" := (bind (eval e%py) (fun x => k))
  (at level 100, x name, e at level 69, k at level 200, only parsing)
  : py_scope.
Notation "s ;; k" := (bind s (fun _ => k))
  (at level 100, k at level 200, right associativity) : py_scope.

(** ** The potential formulas *)

Section Potentials.
Context {A : Arith}.
Local Open Scope Q_scope.
Local Open Scope py_scope.

(** Keyword for each potential *)
Definition AN_CAI : string := "an-cai".
Definition DAEHNICK : string := "daehnick".
Definition BOJOWALD : string := "bojowald".
Definition KONING_DELAROCHE_PROTON : string := "koning-delaroche-proton".
Definition LI_LIANG_CAI_TRITON : string := "li-liang-cai-triton".

(** An-Cai deuteron potential.  The target mass number is [at] in the
    source, a reserved word here, hence [at_]. *)
Definition an_cai_potential (E : num) (zt at_ : Z) : M unit :=
  var a3 ::= at_ ** 0.333;
  params["V"] ::= 91.85 - 0.249 * E + 1.116e-4 * E ** 2.0 + 0.642 * zt / a3;;
  params["Vi"] ::= 1.104 + 0.0622 * E;;
  params["Vsi"] ::= 10.83 - 0.0306 * E;;
  params["Vso"] ::= 3.557;;
  params["Vsoi"] ::= 0.0;;
  params["r0"] ::= 1.152 - 0.00776 / a3;;
  params["ri0"] ::= 1.305 + 0.0997 / a3;;
  params["rsi0"] ::= 1.334 + 0.152 / a3;;
  params["rso0"] ::= 0.972;;
  params["rsoi0"] ::= 0.0;;
  params["rc0"] ::= 1.303;;
  params["a"] ::= 0.719 + 0.0126 * a3;;
  params["ai"] ::= 0.855 - 0.1 * a3;;
  params["asi"] ::= 0.531 + 0.062 * a3;;
  params["aso"] ::= 1.011;;
  params["asoi"] ::= 0.0.

(** Daehnick deuteron potential. *)
Definition daehnick_potential (E : num) (zt at_ : Z) : M unit :=
  let nt := (at_ - zt)%Z in
  var a3 ::= at_ ** 0.333;
  var beta ::= -1.0 * (E * 0.01) ** 2.0;
  var mu1 ::= math_exp (-1.0 * ((8.0 - nt) * 0.5) ** 2.0);
  var mu2 ::= math_exp (-1.0 * ((20.0 - nt) * 0.5) ** 2.0);
  var mu3 ::= math_exp (-1.0 * ((28.0 - nt) * 0.5) ** 2.0);
  var mu4 ::= math_exp (-1.0 * ((50.0 - nt) * 0.5) ** 2.0);
  var mu5 ::= math_exp (-1.0 * ((82.0 - nt) * 0.5) ** 2.0);
  var mu6 ::= math_exp (-1.0 * ((126.0 - nt) * 0.5) ** 2.0);
  var mu ::= mu1 + mu2 + mu3 + mu4 + mu5 + mu6;
  params["V"] ::= 88.0 - 0.283 * E + 0.88 * zt / a3;;
  params["Vi"] ::= (12.0 + 0.031 * E) * (1.0 - math_exp beta);;
  params["Vsi"] ::= (12.0 + 0.031 * E) * (math_exp beta);;
  params["Vso"] ::= 7.2 - 0.032 * E;;
  params["Vsoi"] ::= 0.0;;
  params["r0"] ::= 1.17;;
  params["ri0"] ::= 1.376 - 0.01 * math_sqrt E;;
  params["rsi0"] ::= 1.376 - 0.01 * math_sqrt E;;
  params["rso0"] ::= 1.07;;
  params["rsoi0"] ::= 0.0;;
  params["rc0"] ::= 1.3;;
  params["a"] ::= 0.717 + 0.0012 * E;;
  params["ai"] ::= 0.52 + 0.07 * a3 - 0.04 * mu;;
  params["asi"] ::= 0.52 + 0.07 * a3 - 0.04 * mu;;
  params["aso"] ::= 0.66;;
  params["asoi"] ::= 0.0.

(** Bojowald deuteron potential. *)
Definition bojowald_potential (E : num) (zt at_ : Z) : M unit :=
  var a3 ::= at_ ** 0.333;
  params["V"] ::= 81.33 - 0.24 * E + 1.43 * zt / a3;;
  params["Vi"] ::= if_else (0.132 * (E - 45.0)) (E > 45.0) 0.0;;
  params["Vsi"] ::= 7.8 + 1.04 * a3 - 0.712 * params["Vi"];;
  params["Vso"] ::= 6.0;;
  params["Vsoi"] ::= 0.0;;
  params["r0"] ::= 1.18;;
  params["ri0"] ::= 1.27;;
  params["rsi0"] ::= 1.27;;
  params["rso0"] ::= 0.78 + 0.038 * a3;;
  params["rsoi0"] ::= 0.0;;
  params["rc0"] ::= 1.3;;
  params["a"] ::= 0.636 + 0.035 * a3;;
  params["ai"] ::= 0.768 + 0.021 * a3;;
  params["asi"] ::= 0.768 + 0.021 * a3;;
  params["aso"] ::= 0.78 + 0.038 * a3;;
  params["asoi"] ::= 0.0.

(** Koning-Delaroche proton potential. *)
Definition koning_delaroche_proton_potential (E : num) (zt at_ : Z)
  : M unit :=
  let nt := (at_ - zt)%Z in
  var a3 ::= at_ ** 0.333;

  var v1 ::= 59.30 + 21.0 * (nt - zt)%Z / at_ - 0.024 * at_;
  var v2 ::= 0.007067 + 4.23e-6 * at_;
  var v3 ::= 1.729e-5 + 1.136e-8 * at_;
  var v4 ::= 7.0e-9;

  var w1 ::= 14.667 + 0.009629 * at_;
  var w2 ::= 73.55 + 0.0795 * at_;

  var d1 ::= 16.0 + 16.0 * (nt - zt)%Z / at_;
  var d2 ::= 0.0180 + 0.003802 / (1.0 + math_exp ((at_ - 156.0) / 8.0));
  var d3 ::= 11.5;

  var vso1 ::= 5.922 + 0.0030 * at_;
  var vso2 ::= 0.0040;

  var wso1 ::= -3.1;
  let wso2 := 160%Z in

  var ef ::= -8.4075 + 0.01378 * at_;
  var rc ::= 1.198 + 0.697 * at_ ** (-0.666) + 12.994 * at_ ** (-1.666);
  var vc ::= 1.73 / rc * zt * a3;

  var delta_e ::= E - ef;
  params["V"] ::= v1 * (
      1.0 - v2 * delta_e + v3 * delta_e ** 2.0 - v4 * delta_e ** 3.0
    ) + vc * v1 * (v2 - 2.0 * v3 * delta_e + 3.0 * v4 * delta_e ** 2.0);;
  params["Vi"] ::= w1 * delta_e ** 2.0 / (delta_e ** 2.0 + w2 ** 2.0);;
  params["Vsi"] ::= (
      d1 * delta_e ** 2.0 / (delta_e ** 2.0 + d3 ** 2.0)
      * math_exp (-1.0 * d2 * delta_e)
    );;
  params["Vso"] ::= vso1 * math_exp (-1.0 * vso2 * delta_e);;
  params["Vsoi"] ::= wso1 * delta_e ** 2.0 / (delta_e ** 2.0 + wso2 ** 2.0);;
  params["r0"] ::= 1.3039 - 0.4054 / a3;;
  params["ri0"] ::= params["r0"];;
  params["rsi0"] ::= 1.3424 - 0.01585 * a3;;
  params["rso0"] ::= 1.1854 - 0.647 / a3;;
  params["rsoi0"] ::= params["rso0"];;
  params["rc0"] ::= rc;;
  params["a"] ::= 0.6778 - 1.487e-4 * at_;;
  params["ai"] ::= 0.6778 - 1.487e-4 * at_;;
  params["asi"] ::= 0.5187 + 5.205e-4 * at_;;
  params["aso"] ::= 0.59;;
  params["asoi"] ::= 0.59.

(** Li-Liang-Cai triton potential. *)
Definition li_liang_cai_triton_potential (E : num) (zt at_ : Z) : M unit :=
  let nt := (at_ - zt)%Z in
  var a3 ::= at_ ** (1.0 / 3.0);

  params["V"] ::= 137.6 - 0.1456 * E + 0.0436 * E ** 2%Z
                  + 4.3751 * (nt - zt)%Z / at_ + 1.0474 * zt / a3;;
  params["r0"] ::= 1.1201 - 0.1504 / a3;;
  params["a"] ::= 0.6833 + 0.0191 * a3;;

  params["Vi"] ::= 7.383 + 0.5025 * E - 0.0097 * E ** 2%Z;;
  params["ri0"] ::= 1.3202 - 0.1776 / a3;;
  params["ai"] ::= 1.119 + 0.01913 * a3;;

  params["Vsi"] ::= 37.06 - 0.6451 * E - 47.19 * (nt - zt)%Z / at_;;
  params["rsi0"] ::= 1.251 - 0.4622 / a3;;
  params["asi"] ::= 0.8114 + 0.01159 * a3;;

  params["Vso"] ::= 1.9029;;
  params["rso0"] ::= 0.46991 + 0.1294 / a3;;
  params["aso"] ::= 0.3545 - 0.0522 * a3;;

  params["Vsoi"] ::= 0.0;;
  params["rsoi0"] ::= 0.0;;
  params["asoi"] ::= 0.0;;

  params["rc0"] ::= 1.422.

(** ** Registry and dispatch *)

(** A Python [dict] with string keys as the list of its items, in
    insertion order (the order in which [keys()] lists them). *)
Definition keys {V} (d : list (string * V)) : list string := d.*1.

Fixpoint dict_get {V} (d : list (string * V)) (k : string) : option V :=
  match d with
  | [] => None
  | (k', v) :: d' => if decide (k = k') then Some v else dict_get d' k
  end.

(** Dictionary connecting each keyword to the function for each potential *)
Definition POTENTIALS : list (string * (num -> Z -> Z -> M unit)) :=
  [ (AN_CAI, an_cai_potential);
    (DAEHNICK, daehnick_potential);
    (BOJOWALD, bojowald_potential);
    (KONING_DELAROCHE_PROTON, koning_delaroche_proton_potential);
    (LI_LIANG_CAI_TRITON, li_liang_cai_triton_potential) ].

(** [repr] of a [str] without quotes, backslashes or control characters
    (as the keywords are), and of a [dict_keys] view of such strings. *)
Definition repr_str (s : string) : string := "'" +:+ s +:+ "'".

Definition repr_dict_keys (ks : list string) : string :=
  "dict_keys([" +:+ String.concat ", " (repr_str <$> ks) +:+ "])".

(** The message of the exception of [create_parameters]. *)
Definition not_allowed_message (potential : string) : string :=
  "Potential " +:+ potential
  +:+ " is not in the set of allowed Potentials "
  +:+ repr_dict_keys (keys POTENTIALS) +:+ "!".

(** The dictionary [params] that [create_parameters] starts from. *)
Definition initial_params : Dict :=
  list_to_map
    [ ("V", lit 0.0); ("Vi", lit 0.0); ("Vsi", lit 0.0); ("Vso", lit 0.0);
      ("Vsoi", lit 0.0); ("r0", lit 0.0); ("ri0", lit 0.0);
      ("rsi0", lit 0.0); ("rso0", lit 0.0); ("rsoi0", lit 0.0);
      ("rc0", lit 0.0); ("a", lit 0.0); ("ai", lit 0.0); ("asi", lit 0.0);
      ("aso", lit 0.0); ("asoi", lit 0.0) ].

(** Create the optical model potential parameters. *)
Definition create_parameters (E : num) (zt at_ : Z) (potential : string)
  : result Dict :=
  if decide (potential ∉ keys POTENTIALS) then
    Raise (Exception (not_allowed_message potential))
  else
    let params := initial_params in
    match dict_get POTENTIALS potential with
    | None => Raise (KeyError potential)
    | Some f =>
        match f E zt at_ params with
        | (params', Ok _) => Ok params'
        | (_, Raise e) => Raise e
        end
    end.

End Potentials.

(** The sixteen keys of a parameter set. *)
Definition parameter_keys : gset string :=
  {[ "V"; "Vi"; "Vsi"; "Vso"; "Vsoi"; "r0"; "ri0"; "rsi0"; "rso0"; "rsoi0";
     "rc0"; "a"; "ai"; "asi"; "aso"; "asoi" ]}.

(** ** Data flow of the formulas

    A statement [m] flows from [W] to [W']: started in any dictionary whose
    part on the keys [W] is [known], it stores a set of items that depends
    on [known] alone, on top of whatever the dictionary held, and its outcome
    depends on [known] alone; when it returns, the keys stored so far are
    [W'].  An expression is closed under [W] when it reads keys of [W] only. *)

Section Flow.
Context {A : Arith}.
Implicit Types (W : gset string) (known d : Dict).

Definition closed_expr {B} W (e : Dict -> result B) : Prop :=
  ∀ known, dom known = W → ∃ r, ∀ d, known ⊆ d → e d = r.

Definition flows {B} W (m : M B) W' : Prop :=
  ∀ known, dom known = W →
    ∃ known' r,
      dom known ⊆ dom known'
      ∧ (∀ b, r = Ok b → dom known' = W')
      ∧ ∀ d, known ⊆ d → m d = (known' ∪ d, r).

Lemma closed_lit W (q : Q) : closed_expr W (e_lit q).
Proof. intros known _. by exists (Ok (lit q)). Qed.

Lemma closed_num W (x : num) : closed_expr W (e_num x).
Proof. intros known _. by exists (Ok x). Qed.

Lemma closed_int W (z : Z) : closed_expr W (e_int z).
Proof. intros known _. by exists (of_int z). Qed.

Lemma closed_lift2 {B} W (op : num -> num -> result B) (a b : expr) :
  closed_expr W a → closed_expr W b → closed_expr W (lift2 op a b).
Proof.
  intros Ha Hb known Hk.
  destruct (Ha known Hk) as [ra Hra], (Hb known Hk) as [rb Hrb].
  exists (match ra with
          | Ok x => match rb with Ok y => op x y | Raise e => Raise e end
          | Raise e => Raise e
          end).
  intros d Hd. unfold lift2. by rewrite (Hra d Hd), (Hrb d Hd).
Qed.

Lemma closed_lift1 W (op : num -> result num) (a : expr) :
  closed_expr W a → closed_expr W (lift1 op a).
Proof.
  intros Ha known Hk. destruct (Ha known Hk) as [ra Hra].
  exists (match ra with Ok x => op x | Raise e => Raise e end).
  intros d Hd. unfold lift1. by rewrite (Hra d Hd).
Qed.

Lemma closed_if_else W (a : expr) (c : cond) (b : expr) :
  closed_expr W a → closed_expr W c → closed_expr W b →
  closed_expr W (if_else a c b).
Proof.
  intros Ha Hc Hb known Hk.
  destruct (Ha known Hk) as [ra Hra], (Hc known Hk) as [rc Hrc],
    (Hb known Hk) as [rb Hrb].
  exists (match rc with
          | Ok true => ra
          | Ok false => rb
          | Raise e => Raise e
          end).
  intros d Hd. unfold if_else.
  by rewrite (Hra d Hd), (Hrc d Hd), (Hrb d Hd).
Qed.

Lemma closed_getitem W (key : string) :
  key ∈ W → closed_expr W (getitem key).
Proof.
  intros Hin known Hk.
  assert (is_Some (known !! key)) as [v Hv]
    by (apply elem_of_dom; by rewrite Hk).
  exists (Ok v). intros d Hd. unfold getitem.
  by rewrite (lookup_weaken _ _ _ _ Hv Hd).
Qed.

Lemma union_known known d : known ⊆ d → known ∪ d = d.
Proof. intros Hd. by apply map_subseteq_union. Qed.

Lemma flows_ret {B} W (b : B) : flows W (ret b) W.
Proof.
  intros known Hk. exists known, (Ok b). split_and!; [done.. |].
  intros d Hd. unfold ret. by rewrite union_known.
Qed.

Lemma flows_eval W (e : expr) : closed_expr W e → flows W (eval e) W.
Proof.
  intros He known Hk. destruct (He known Hk) as [r Hr].
  exists known, r. split_and!; [done.. |].
  intros d Hd. unfold eval. by rewrite (Hr d Hd), union_known.
Qed.

Lemma flows_setitem W (key : string) (e : expr) :
  closed_expr W e → flows W (setitem key e) ({[key]} ∪ W).
Proof.
  intros He known Hk. destruct (He known Hk) as [[v|x] Hr].
  - exists (<[key := v]> known), (Ok tt). split_and!.
    + rewrite dom_insert_L. set_solver.
    + intros _ _. by rewrite dom_insert_L, Hk.
    + intros d Hd. unfold setitem. rewrite (Hr d Hd).
      by rewrite <- insert_union_l, union_known.
  - exists known, (Raise x). split_and!; [done.. |].
    intros d Hd. unfold setitem. by rewrite (Hr d Hd), union_known.
Qed.

Lemma flows_bind {B C} W W1 W2 (m : M B) (f : B -> M C) :
  flows W m W1 → (∀ b, flows W1 (f b) W2) → flows W (bind m f) W2.
Proof.
  intros Hm Hf known Hk.
  destruct (Hm known Hk) as (known1 & [b|x] & Hsub1 & Hdom1 & Hrun1).
  - destruct (Hf b known1 (Hdom1 b eq_refl))
      as (known2 & r & Hsub2 & Hdom2 & Hrun2).
    exists known2, r. split_and!; [by etrans | done |].
    intros d Hd. unfold bind. rewrite (Hrun1 d Hd).
    rewrite Hrun2 by apply map_union_subseteq_l.
    f_equal. rewrite (assoc_L (∪)). f_equal.
    apply map_eq. intros i. rewrite lookup_union.
    destruct (known2 !! i) as [v|] eqn:Hi; [by destruct (known1 !! i)|].
    apply not_elem_of_dom in Hi.
    assert (i ∉ dom known1) as Hi1 by (intros Hi1; by apply Hi, Hsub2).
    apply not_elem_of_dom in Hi1. by rewrite Hi1.
  - exists known1, (Raise x). split_and!; [done | done |].
    intros d Hd. unfold bind. by rewrite (Hrun1 d Hd).
Qed.

Lemma flows_post {B} W W1 W2 (m : M B) :
  flows W m W1 → W1 = W2 → flows W m W2.
Proof. by intros ? <-. Qed.

End Flow.

Ltac closed_expr_tac :=
  repeat first
    [ apply closed_lit | apply closed_num | apply closed_int
    | apply closed_lift2 | apply closed_lift1 | apply closed_if_else
    | apply closed_getitem; set_solver ].

Ltac flows_step :=
  first [ apply flows_eval; closed_expr_tac
        | apply flows_setitem; closed_expr_tac ].

Ltac flows_tac :=
  eapply flows_post;
  [ repeat first [ eapply flows_bind; [ flows_step | intros ? ] | flows_step ]
  | set_solver ].

Section FormulaFlow.
Context {A : Arith}.

Lemma an_cai_flows E zt at_ :
  flows ∅ (an_cai_potential E zt at_) parameter_keys.
Proof. unfold an_cai_potential. flows_tac. Qed.

Lemma daehnick_flows E zt at_ :
  flows ∅ (daehnick_potential E zt at_) parameter_keys.
Proof. unfold daehnick_potential. cbv zeta. flows_tac. Qed.

Lemma bojowald_flows E zt at_ :
  flows ∅ (bojowald_potential E zt at_) parameter_keys.
Proof. unfold bojowald_potential. flows_tac. Qed.

Lemma koning_delaroche_proton_flows E zt at_ :
  flows ∅ (koning_delaroche_proton_potential E zt at_) parameter_keys.
Proof. unfold koning_delaroche_proton_potential. cbv zeta. flows_tac. Qed.

Lemma li_liang_cai_triton_flows E zt at_ :
  flows ∅ (li_liang_cai_triton_potential E zt at_) parameter_keys.
Proof. unfold li_liang_cai_triton_potential. cbv zeta. flows_tac. Qed.

End FormulaFlow.

(** ** Exact arithmetic

    Numbers are real numbers and every operation is the exact one, with
    Python's exceptions: [/] raises [ZeroDivisionError] on a zero divisor,
    [math.sqrt] raises [ValueError] on a negative argument, and [**]
    follows [float.__pow__]: anything to the power zero is one, zero to a
    negative power raises [ZeroDivisionError], a negative base needs an
    integral exponent (whose parity gives the sign). *)

Module Exact.

Definition py_div (x y : R) : result R :=
  if Req_dec_T y 0 then Raise ZeroDivisionError else Ok (x / y)%R.

Definition py_pow (x y : R) : result R :=
  if Req_dec_T y 0 then Ok 1%R
  else if Rlt_dec 0 x then Ok (Rpower x y)
  else if Req_dec_T x 0 then
    if Rlt_dec y 0 then Raise ZeroDivisionError else Ok 0%R
  else if Req_dec_T (IZR (Int_part y)) y then
    Ok (if Z.odd (Int_part y) then - Rpower (- x) y else Rpower (- x) y)%R
  else Raise NotReal.

Definition py_exp (x : R) : result R := Ok (exp x).

Definition py_sqrt (x : R) : result R :=
  if Rlt_dec x 0 then Raise ValueError else Ok (sqrt x).

Definition py_gt (x y : R) : bool :=
  if Rlt_dec y x then true else false.

#[export] Program Instance arith : Arith := {|
  num := R;
  lit := Q2R;
  of_int z := Ok (IZR z);
  f_add := Rplus;
  f_sub := Rminus;
  f_mul := Rmult;
  f_div := py_div;
  f_pow := py_pow;
  f_exp := py_exp;
  f_sqrt := py_sqrt;
  f_gt := py_gt
|}.
Next Obligation. intros z e [=]. Qed.
Next Obligation.
  intros x y e. unfold py_div. destruct (Req_dec_T y 0); by intros [= <-].
Qed.
Next Obligation.
  intros x y e. unfold py_pow.
  repeat match goal with |- context [if ?c then _ else _] => destruct c end;
    by intros [= <-].
Qed.
Next Obligation. intros x e [=]. Qed.
Next Obligation.
  intros x e. unfold py_sqrt. destruct (Rlt_dec x 0); by intros [= <-].
Qed.

Local Open Scope R_scope.

(** *** When the operations return *)

Lemma py_div_ok x y : y <> 0 -> py_div x y = Ok (x / y).
Proof. intros. unfold py_div. by destruct (Req_dec_T y 0). Qed.

Lemma py_div_zero x : py_div x 0 = Raise ZeroDivisionError.
Proof. unfold py_div. by destruct (Req_dec_T 0 0). Qed.

Lemma py_sqrt_ok x : 0 <= x -> py_sqrt x = Ok (sqrt x).
Proof. intros. unfold py_sqrt. destruct (Rlt_dec x 0); [lra | done]. Qed.

Lemma py_sqrt_neg x : x < 0 -> py_sqrt x = Raise ValueError.
Proof. intros. unfold py_sqrt. destruct (Rlt_dec x 0); [done | lra]. Qed.

Lemma py_gt_true x y : y < x -> py_gt x y = true.
Proof. intros. unfold py_gt. destruct (Rlt_dec y x); [done | lra]. Qed.

Lemma py_gt_false x y : x <= y -> py_gt x y = false.
Proof. intros. unfold py_gt. destruct (Rlt_dec y x); [lra | done]. Qed.

Lemma py_pow_pos x y : 0 < x -> py_pow x y = Ok (Rpower x y).
Proof.
  intros. unfold py_pow. destruct (Req_dec_T y 0) as [->|].
  - by rewrite Rpower_O.
  - by destruct (Rlt_dec 0 x).
Qed.

Lemma py_pow_zero y : 0 < y -> py_pow 0 y = Ok 0.
Proof.
  intros. unfold py_pow.
  destruct (Req_dec_T y 0); [lra|].
  destruct (Rlt_dec 0 0); [lra|].
  destruct (Req_dec_T 0 0); [|done].
  destruct (Rlt_dec y 0); [lra | done].
Qed.

Lemma Int_part_IZR z : Int_part (IZR z) = z.
Proof. symmetry. apply Int_part_spec. lra. Qed.

Lemma py_pow_neg_frac x y :
  x < 0 -> IZR (Int_part y) <> y -> py_pow x y = Raise NotReal.
Proof.
  intros Hx Hy. unfold py_pow.
  destruct (Req_dec_T y 0) as [->|].
  { exfalso. apply Hy. by rewrite Int_part_IZR. }
  destruct (Rlt_dec 0 x); [lra|].
  destruct (Req_dec_T x 0); [lra|].
  by destruct (Req_dec_T (IZR (Int_part y)) y).
Qed.

Lemma pow_neg_base x (n : nat) :
  (if Z.odd (Z.of_nat n) then - (- x) ^ n else (- x) ^ n) = x ^ n.
Proof.
  induction n as [|n IH]; [simpl; lra|].
  rewrite Nat2Z.inj_succ, Z.odd_succ, <- Z.negb_odd.
  destruct (Z.odd (Z.of_nat n)); simpl in *;
    [rewrite <- IH | rewrite <- IH]; ring.
Qed.

(** A positive integral exponent: the power is the iterated product,
    whatever the sign of the base. *)
Lemma py_pow_nat x (n : nat) :
  n <> 0%nat -> py_pow x (IZR (Z.of_nat n)) = Ok (x ^ n).
Proof.
  intros Hn. unfold py_pow. rewrite Int_part_IZR.
  destruct (Req_dec_T (IZR (Z.of_nat n)) (IZR (Z.of_nat n))) as [_|?];
    [|done].
  rewrite <- INR_IZR_INZ.
  assert (0 < INR n) as Hpos by (apply lt_0_INR; lia).
  destruct (Req_dec_T (INR n) 0) as [H0|_]; [lra|].
  destruct (Rlt_dec 0 x) as [Hx|Hx]; [by rewrite Rpower_pow|].
  destruct (Req_dec_T x 0) as [->|Hx0].
  { destruct (Rlt_dec (INR n) 0) as [Hlt|_]; [lra|].
    f_equal. symmetry. apply pow_i. lia. }
  f_equal. rewrite Rpower_pow by lra. apply pow_neg_base.
Qed.

Lemma py_pow_2 x y : y = 2 -> py_pow x y = Ok (x ^ 2).
Proof. intros ->. by apply (py_pow_nat x 2). Qed.

Lemma py_pow_3 x y : y = 3 -> py_pow x y = Ok (x ^ 3).
Proof. intros ->. by apply (py_pow_nat x 3). Qed.

Lemma Rpower_pos x y : 0 < Rpower x y.
Proof. apply exp_pos. Qed.

(** *** Running the formulas

    In exact arithmetic a formula returns on every positive mass number
    (daehnick: and every non-negative energy), and what it stores is given
    in closed form. *)

(** The dictionary after storing [items], in order, into [d]. *)
Definition store (items : list (string * R)) (d : gmap string R)
  : gmap string R :=
  foldl (fun d kv => <[kv.1 := kv.2]> d) d items.

Lemma if_Ok {B} (b : bool) (x y : B) :
  (if b then Ok x else Ok y) = Ok (if b then x else y).
Proof. by destruct b. Qed.

Lemma Int_part_small y : 0 <= y < 1 -> Int_part y = 0%Z.
Proof. intros. symmetry. apply Int_part_spec. lra. Qed.

Lemma not_integral y : 0 < y < 1 -> IZR (Int_part y) <> y.
Proof. intros. rewrite Int_part_small by lra. lra. Qed.

Ltac run_unfold :=
  cbv beta iota zeta delta
    [an_cai_potential daehnick_potential bojowald_potential
     koning_delaroche_proton_potential li_liang_cai_triton_potential
     bind eval setitem ret e_add e_sub e_mul e_div e_pow e_gt
     math_exp math_sqrt if_else lift2 lift1 e_lit e_num e_int
     f_add f_sub f_mul f_div f_pow f_exp f_sqrt f_gt of_int lit num
     arith py_exp].

Ltac positives :=
  repeat match goal with
    | |- context [Rpower ?a ?b] =>
        let p := fresh "p" in
        pose proof (Rpower_pos a b);
        set (p := Rpower a b) in *; clearbody p
    | |- context [exp ?a] =>
        let p := fresh "p" in
        pose proof (exp_pos a);
        set (p := exp a) in *; clearbody p
    end.

Ltac nonzero :=
  positives;
  first
    [ lra
    | apply Rgt_not_eq, Rplus_le_lt_0_compat;
      [ apply pow2_ge_0 | apply pow_lt; lra ]
    | nra ].

Ltac run_step :=
  match goal with
  | |- context [py_pow ?a ?b] =>
      first [ rewrite (py_pow_2 a b) by lra
            | rewrite (py_pow_3 a b) by lra
            | rewrite (py_pow_pos a b) by lra
            | rewrite (py_pow_zero b) by lra
            | rewrite (py_pow_neg_frac a b)
                by first [ apply IZR_lt; lia | apply not_integral; lra ] ]
  | |- context [py_div ?a ?b] =>
      first [ rewrite (py_div_ok a b) by nonzero
            | rewrite (py_div_zero a) ]
  | |- context [py_sqrt ?a] =>
      first [ rewrite (py_sqrt_ok a) by lra
            | rewrite (py_sqrt_neg a) by lra ]
  | |- context [getitem _ _] => unfold getitem
  | |- context [lookup ?k (insert ?k _ _)] => rewrite lookup_insert_eq
  | |- context [if ?b then Ok ?x else Ok ?y] =>
      rewrite (if_Ok b x y)
  end; cbv beta iota.

Ltac run :=
  repeat match goal with
    | H : (0 < ?a)%Z |- _ =>
        lazymatch goal with
        | _ : 0 < IZR a |- _ => fail
        | _ => pose proof (IZR_lt _ _ H)
        end
    end;
  run_unfold; repeat run_step.

(** What [an_cai_potential] stores, in closed form. *)
Definition an_cai_items (E : R) (zt at_ : Z) : list (string * R) :=
  let a3 := Rpower (IZR at_) 0.333 in
  [ ("V", 91.85 - 0.249 * E + 0.0001116 * E ^ 2 + 0.642 * IZR zt / a3);
    ("Vi", 1.104 + 0.0622 * E);
    ("Vsi", 10.83 - 0.0306 * E);
    ("Vso", 3.557);
    ("Vsoi", 0.0);
    ("r0", 1.152 - 0.00776 / a3);
    ("ri0", 1.305 + 0.0997 / a3);
    ("rsi0", 1.334 + 0.152 / a3);
    ("rso0", 0.972);
    ("rsoi0", 0.0);
    ("rc0", 1.303);
    ("a", 0.719 + 0.0126 * a3);
    ("ai", 0.855 - 0.1 * a3);
    ("asi", 0.531 + 0.062 * a3);
    ("aso", 1.011);
    ("asoi", 0.0) ].

Lemma an_cai_exact E zt at_ d :
  (0 < at_)%Z ->
  an_cai_potential E zt at_ d = (store (an_cai_items E zt at_) d, Ok tt).
Proof. intros Hat. run. reflexivity. Qed.

(** The smoothing term of the Daehnick potential: a sum of Gaussians of
    width 0.5 centred at the closed-shell neutron numbers. *)
Definition gaussian (N nt : R) : R := exp (-1.0 * ((N - nt) * 0.5) ^ 2).

Definition daehnick_mu (nt : Z) : R :=
  gaussian 8.0 (IZR nt) + gaussian 20.0 (IZR nt) + gaussian 28.0 (IZR nt)
  + gaussian 50.0 (IZR nt) + gaussian 82.0 (IZR nt)
  + gaussian 126.0 (IZR nt).

(** What [daehnick_potential] stores, in closed form. *)
Definition daehnick_items (E : R) (zt at_ : Z) : list (string * R) :=
  let a3 := Rpower (IZR at_) 0.333 in
  let beta := -1.0 * (E * 0.01) ^ 2 in
  let mu := daehnick_mu (at_ - zt) in
  [ ("V", 88.0 - 0.283 * E + 0.88 * IZR zt / a3);
    ("Vi", (12.0 + 0.031 * E) * (1.0 - exp beta));
    ("Vsi", (12.0 + 0.031 * E) * exp beta);
    ("Vso", 7.2 - 0.032 * E);
    ("Vsoi", 0.0);
    ("r0", 1.17);
    ("ri0", 1.376 - 0.01 * sqrt E);
    ("rsi0", 1.376 - 0.01 * sqrt E);
    ("rso0", 1.07);
    ("rsoi0", 0.0);
    ("rc0", 1.3);
    ("a", 0.717 + 0.0012 * E);
    ("ai", 0.52 + 0.07 * a3 - 0.04 * mu);
    ("asi", 0.52 + 0.07 * a3 - 0.04 * mu);
    ("aso", 0.66);
    ("asoi", 0.0) ].

Lemma daehnick_exact E zt at_ d :
  (0 < at_)%Z -> 0 <= E ->
  daehnick_potential E zt at_ d = (store (daehnick_items E zt at_) d, Ok tt).
Proof. intros Hat HE. run. reflexivity. Qed.

(** What [bojowald_potential] stores, in closed form. *)
Definition bojowald_items (E : R) (zt at_ : Z) : list (string * R) :=
  let a3 := Rpower (IZR at_) 0.333 in
  let Vi := if py_gt E 45.0 then 0.132 * (E - 45.0) else 0.0 in
  [ ("V", 81.33 - 0.24 * E + 1.43 * IZR zt / a3);
    ("Vi", Vi);
    ("Vsi", 7.8 + 1.04 * a3 - 0.712 * Vi);
    ("Vso", 6.0);
    ("Vsoi", 0.0);
    ("r0", 1.18);
    ("ri0", 1.27);
    ("rsi0", 1.27);
    ("rso0", 0.78 + 0.038 * a3);
    ("rsoi0", 0.0);
    ("rc0", 1.3);
    ("a", 0.636 + 0.035 * a3);
    ("ai", 0.768 + 0.021 * a3);
    ("asi", 0.768 + 0.021 * a3);
    ("aso", 0.78 + 0.038 * a3);
    ("asoi", 0.0) ].

Lemma bojowald_exact E zt at_ d :
  (0 < at_)%Z ->
  bojowald_potential E zt at_ d = (store (bojowald_items E zt at_) d, Ok tt).
Proof. intros Hat. run. reflexivity. Qed.

(** What [koning_delaroche_proton_potential] stores, in closed form. *)
Definition koning_delaroche_proton_items (E : R) (zt at_ : Z)
  : list (string * R) :=
  let nt := (at_ - zt)%Z in
  let a3 := Rpower (IZR at_) 0.333 in
  let v1 := 59.30 + 21.0 * IZR (nt - zt) / IZR at_ - 0.024 * IZR at_ in
  let v2 := 0.007067 + 0.00000423 * IZR at_ in
  let v3 := 0.00001729 + 0.00000001136 * IZR at_ in
  let v4 := 0.0000000070 in
  let w1 := 14.667 + 0.009629 * IZR at_ in
  let w2 := 73.55 + 0.0795 * IZR at_ in
  let d1 := 16.0 + 16.0 * IZR (nt - zt) / IZR at_ in
  let d2 := 0.0180 + 0.003802 / (1.0 + exp ((IZR at_ - 156.0) / 8.0)) in
  let d3 := 11.5 in
  let vso1 := 5.922 + 0.0030 * IZR at_ in
  let vso2 := 0.0040 in
  let wso1 := -3.1 in
  let wso2 := 160 in
  let ef := -8.4075 + 0.01378 * IZR at_ in
  let rc := 1.198 + 0.697 * Rpower (IZR at_) (-0.666)
         + 12.994 * Rpower (IZR at_) (-1.666) in
  let vc := 1.73 / rc * IZR zt * a3 in
  let delta_e := E - ef in
  let r0 := 1.3039 - 0.4054 / a3 in
  let rso0 := 1.1854 - 0.647 / a3 in
  [ ("V", v1 * (1.0 - v2 * delta_e + v3 * delta_e ^ 2
         - v4 * delta_e ^ 3)
         + vc * v1 * (v2 - 2.0 * v3 * delta_e
         + 3.0 * v4 * delta_e ^ 2));
    ("Vi", w1 * delta_e ^ 2 / (delta_e ^ 2 + w2 ^ 2));
    ("Vsi", d1 * delta_e ^ 2 / (delta_e ^ 2 + d3 ^ 2)
         * exp (-1.0 * d2 * delta_e));
    ("Vso", vso1 * exp (-1.0 * vso2 * delta_e));
    ("Vsoi", wso1 * delta_e ^ 2 / (delta_e ^ 2 + wso2 ^ 2));
    ("r0", r0);
    ("ri0", r0);
    ("rsi0", 1.3424 - 0.01585 * a3);
    ("rso0", rso0);
    ("rsoi0", rso0);
    ("rc0", rc);
    ("a", 0.6778 - 0.0001487 * IZR at_);
    ("ai", 0.6778 - 0.0001487 * IZR at_);
    ("asi", 0.5187 + 0.0005205 * IZR at_);
    ("aso", 0.59);
    ("asoi", 0.59) ].

Lemma koning_delaroche_proton_exact E zt at_ d :
  (0 < at_)%Z ->
  koning_delaroche_proton_potential E zt at_ d =
    (store (koning_delaroche_proton_items E zt at_) d, Ok tt).
Proof. intros Hat. run. reflexivity. Qed.

(** What [li_liang_cai_triton_potential] stores, in closed form. *)
Definition li_liang_cai_triton_items (E : R) (zt at_ : Z) : list (string * R) :=
  let nt := (at_ - zt)%Z in
  let a3 := Rpower (IZR at_) (1.0 / 3.0) in
  [ ("V", 137.6 - 0.1456 * E + 0.0436 * E ^ 2
         + 4.3751 * IZR (nt - zt) / IZR at_ + 1.0474 * IZR zt / a3);
    ("r0", 1.1201 - 0.1504 / a3);
    ("a", 0.6833 + 0.0191 * a3);
    ("Vi", 7.383 + 0.5025 * E - 0.0097 * E ^ 2);
    ("ri0", 1.3202 - 0.1776 / a3);
    ("ai", 1.119 + 0.01913 * a3);
    ("Vsi", 37.06 - 0.6451 * E - 47.19 * IZR (nt - zt) / IZR at_);
    ("rsi0", 1.251 - 0.4622 / a3);
    ("asi", 0.8114 + 0.01159 * a3);
    ("Vso", 1.9029);
    ("rso0", 0.46991 + 0.1294 / a3);
    ("aso", 0.3545 - 0.0522 * a3);
    ("Vsoi", 0.0);
    ("rsoi0", 0.0);
    ("asoi", 0.0);
    ("rc0", 1.422) ].

Lemma li_liang_cai_triton_exact E zt at_ d :
  (0 < at_)%Z ->
  li_liang_cai_triton_potential E zt at_ d =
    (store (li_liang_cai_triton_items E zt at_) d, Ok tt).
Proof. intros Hat. run. reflexivity. Qed.

(** *** Where the formulas raise *)

Ltac registered f Hf :=
  unfold POTENTIALS, dict_get in Hf;
  repeat case_decide; try discriminate Hf;
  injection Hf as <-.

(** A zero mass number: [a3] is zero, or the mass number itself divides. *)
Lemma formula_at_zero p f E zt d :
  dict_get POTENTIALS p = Some f ->
  (f E zt 0%Z d).2 = Raise ZeroDivisionError.
Proof. intros Hf. registered f Hf; run; reflexivity. Qed.

(** A negative mass number: [a3] is not a real number. *)
Lemma formula_at_negative p f E zt at_ d :
  dict_get POTENTIALS p = Some f ->
  (at_ < 0)%Z ->
  (f E zt at_ d).2 = Raise NotReal.
Proof. intros Hf Hat. registered f Hf; run; reflexivity. Qed.

(** A negative energy in the Daehnick potential: [math.sqrt] raises, after
    [V], [Vi], [Vsi], [Vso], [Vsoi] and [r0] are stored. *)
Lemma daehnick_negative_energy E zt at_ d :
  (0 < at_)%Z -> E < 0 ->
  (daehnick_potential E zt at_ d).2 = Raise ValueError.
Proof. intros Hat HE. run. reflexivity. Qed.

End Exact.

(** ** What holds in every arithmetic *)

Section Generic.
Context {A : Arith}.
Implicit Types (d : Dict).

(** *** A formula stores a fixed set of items *)

Lemma flows_run {B} (m : M B) W' :
  flows ∅ m W' →
  ∃ ws r, (∀ b, r = Ok b → dom ws = W') ∧ ∀ d, m d = (ws ∪ d, r).
Proof.
  intros Hm. destruct (Hm ∅ dom_empty_L) as (ws & r & _ & Hdom & Hrun).
  exists ws, r. split; [done|]. intros d. apply Hrun, map_empty_subseteq.
Qed.

Lemma keys_POTENTIALS :
  keys POTENTIALS =
    [ "an-cai"; "daehnick"; "bojowald"; "koning-delaroche-proton";
      "li-liang-cai-triton" ].
Proof. reflexivity. Qed.

Lemma dict_get_keys {V} (l : list (string * V)) k :
  k ∈ keys l ↔ is_Some (dict_get l k).
Proof.
  unfold keys. induction l as [|[k' v] l IH]; simpl.
  - split; [by intros ?%elem_of_nil | by intros [? [=]]].
  - rewrite elem_of_cons, IH. case_decide as Hk.
    + split; [by eexists | by left].
    + split; [by intros [?|?] | by right].
Qed.

Lemma registered_flows p f E zt at_ :
  dict_get POTENTIALS p = Some f →
  flows ∅ (f E zt at_) parameter_keys.
Proof.
  unfold POTENTIALS, dict_get. intros Hf.
  repeat case_decide; simplify_eq;
    auto using an_cai_flows, daehnick_flows, bojowald_flows,
      koning_delaroche_proton_flows, li_liang_cai_triton_flows.
Qed.

Lemma dom_initial_params : dom initial_params = parameter_keys.
Proof.
  unfold initial_params. rewrite dom_list_to_map_L.
  cbn [fmap list_fmap fst list_to_set]. unfold parameter_keys. set_solver.
Qed.

(** *** A formula raises built-in exceptions only *)

Definition expr_builtin {B} (e : Dict -> result B) : Prop :=
  ∀ d, raises_builtin (e d).

Definition stmt_builtin {B} (m : M B) : Prop :=
  ∀ d, raises_builtin (m d).2.

Lemma builtin_lit (q : Q) : expr_builtin (e_lit q).
Proof. by intros d e. Qed.

Lemma builtin_num (x : num) : expr_builtin (e_num x).
Proof. by intros d e. Qed.

Lemma builtin_int (z : Z) : expr_builtin (e_int z).
Proof. intros d. apply of_int_raises. Qed.

Lemma builtin_lift2 {B} (op : num -> num -> result B) (a b : expr) :
  (∀ x y, raises_builtin (op x y)) →
  expr_builtin a → expr_builtin b → expr_builtin (lift2 op a b).
Proof.
  intros Hop Ha Hb d e. unfold lift2.
  destruct (a d) as [x|ea] eqn:Hx; [|intros [= <-]; by eapply Ha].
  destruct (b d) as [y|eb] eqn:Hy; [|intros [= <-]; by eapply Hb].
  apply Hop.
Qed.

Lemma builtin_total {B} (op : num -> num -> B) x y :
  raises_builtin (Ok (op x y)).
Proof. by intros e. Qed.

Lemma builtin_lift1 (op : num -> result num) (a : expr) :
  (∀ x, raises_builtin (op x)) →
  expr_builtin a → expr_builtin (lift1 op a).
Proof.
  intros Hop Ha d e. unfold lift1.
  destruct (a d) as [x|ea] eqn:Hx; [|intros [= <-]; by eapply Ha].
  apply Hop.
Qed.

Lemma builtin_if_else (a : expr) (c : cond) (b : expr) :
  expr_builtin a → expr_builtin c → expr_builtin b →
  expr_builtin (if_else a c b).
Proof.
  intros Ha Hc Hb d e. unfold if_else.
  destruct (c d) as [[]|ec] eqn:Hcd;
    [apply Ha | apply Hb | intros [= <-]; by eapply Hc].
Qed.

Lemma builtin_getitem (key : string) : expr_builtin (getitem key).
Proof. intros d e. unfold getitem. destruct (d !! key); by intros [= <-]. Qed.

Lemma builtin_eval (e : expr) : expr_builtin e → stmt_builtin (eval e).
Proof. intros He d. apply He. Qed.

Lemma builtin_setitem (key : string) (e : expr) :
  expr_builtin e → stmt_builtin (setitem key e).
Proof.
  intros He d x. unfold setitem.
  destruct (e d) as [v|y] eqn:Hv; simpl; [done|].
  intros [= <-]. by eapply He.
Qed.

Lemma builtin_bind {B C} (m : M B) (f : B -> M C) :
  stmt_builtin m → (∀ b, stmt_builtin (f b)) → stmt_builtin (bind m f).
Proof.
  intros Hm Hf d x. unfold bind.
  destruct (m d) as [d' [b|y]] eqn:Hmd; simpl.
  - apply Hf.
  - intros [= <-]. eapply (Hm d). by rewrite Hmd.
Qed.

End Generic.

Ltac builtin_expr_tac :=
  repeat first
    [ apply builtin_lit | apply builtin_num | apply builtin_int
    | apply builtin_getitem
    | apply builtin_lift2;
      [ first [ apply f_div_raises | apply f_pow_raises
              | intros ? ?; apply builtin_total ] | | ]
    | apply builtin_lift1; [ first [apply f_exp_raises | apply f_sqrt_raises] | ]
    | apply builtin_if_else ].

Ltac builtin_tac :=
  repeat first
    [ apply builtin_bind; [ | intros ? ]
    | apply builtin_eval; builtin_expr_tac
    | apply builtin_setitem; builtin_expr_tac ].

Section GenericDispatch.
Context {A : Arith}.
Implicit Types (d : Dict).

Lemma registered_builtin p f E zt at_ :
  dict_get POTENTIALS p = Some f → stmt_builtin (f E zt at_).
Proof.
  unfold POTENTIALS, dict_get. intros Hf.
  repeat case_decide; simplify_eq;
    [ unfold an_cai_potential | unfold daehnick_potential
    | unfold bojowald_potential | unfold koning_delaroche_proton_potential
    | unfold li_liang_cai_triton_potential ];
    cbv zeta; builtin_tac.
Qed.

(** *** The dispatch *)

Lemma create_parameters_unregistered E zt at_ p :
  p ∉ keys POTENTIALS →
  create_parameters E zt at_ p = Raise (Exception (not_allowed_message p)).
Proof. intros Hp. unfold create_parameters. by case_decide. Qed.

Lemma create_parameters_registered E zt at_ p f :
  dict_get POTENTIALS p = Some f →
  create_parameters E zt at_ p =
    match f E zt at_ initial_params with
    | (params', Ok _) => Ok params'
    | (_, Raise e) => Raise e
    end.
Proof.
  intros Hf. unfold create_parameters. case_decide as Hp.
  - exfalso. apply Hp, dict_get_keys. by eexists.
  - by rewrite Hf.
Qed.

Lemma create_parameters_ok_inv E zt at_ p ps :
  create_parameters E zt at_ p = Ok ps →
  ∃ f, dict_get POTENTIALS p = Some f
       ∧ f E zt at_ initial_params = (ps, Ok tt).
Proof.
  unfold create_parameters. case_decide as Hp; [done|].
  destruct (dict_get POTENTIALS p) as [f|] eqn:Hf; [|done].
  destruct (f E zt at_ initial_params) as [ps' [[]|e]] eqn:Hrun; [|done].
  intros [= <-]. by exists f.
Qed.

Lemma create_parameters_dom E zt at_ p ps :
  create_parameters E zt at_ p = Ok ps → dom ps = parameter_keys.
Proof.
  intros (f & Hf & Hrun)%create_parameters_ok_inv.
  destruct (flows_run _ _ (registered_flows p f E zt at_ Hf))
    as (ws & r & Hdom & Hws).
  rewrite Hws in Hrun. injection Hrun as <- ->.
  rewrite dom_union_L, (Hdom tt eq_refl), dom_initial_params. set_solver.
Qed.

Lemma create_parameters_exception E zt at_ p msg :
  create_parameters E zt at_ p = Raise (Exception msg) →
  (p ∉ keys POTENTIALS) ∧ msg = not_allowed_message p.
Proof.
  unfold create_parameters. case_decide as Hp; [by intros [= <-]|].
  destruct (dict_get POTENTIALS p) as [f|] eqn:Hf; [|done].
  destruct (f E zt at_ initial_params) as [ps' [[]|e]] eqn:Hrun; [done|].
  intros [= ->]. exfalso.
  apply (registered_builtin p f E zt at_ Hf initial_params (Exception msg)).
  by rewrite Hrun.
Qed.

(** *** The message of the exception *)

Definition mentions (msg s : string) : Prop :=
  ∃ pre post, msg = pre +:+ s +:+ post.

Lemma string_app_assoc (s t u : string) :
  (s +:+ t) +:+ u = s +:+ (t +:+ u).
Proof.
  induction s as [|c s IH]; [done|].
  change (String c ((s +:+ t) +:+ u) = String c (s +:+ (t +:+ u))).
  by f_equal.
Qed.

Lemma message_mentions_keys p k :
  k ∈ keys POTENTIALS → mentions (not_allowed_message p) k.
Proof.
  rewrite keys_POTENTIALS. intros Hk.
  set (head := "Potential " +:+ p
               +:+ " is not in the set of allowed Potentials dict_keys([").
  assert (∀ mid post,
    " is not in the set of allowed Potentials "
      +:+ repr_dict_keys (keys POTENTIALS) +:+ "!"
    = " is not in the set of allowed Potentials dict_keys(["
      +:+ mid +:+ k +:+ post →
    mentions (not_allowed_message p) k) as Hsplit.
  { intros mid post Heq. exists (head +:+ mid), post.
    unfold not_allowed_message, head. rewrite Heq.
    by rewrite !string_app_assoc. }
  repeat (apply elem_of_cons in Hk as [->|Hk]);
    [ apply (Hsplit "'" "', 'daehnick', 'bojowald', 'koning-delaroche-proton', 'li-liang-cai-triton'])!")
    | apply (Hsplit "'an-cai', '" "', 'bojowald', 'koning-delaroche-proton', 'li-liang-cai-triton'])!")
    | apply (Hsplit "'an-cai', 'daehnick', '" "', 'koning-delaroche-proton', 'li-liang-cai-triton'])!")
    | apply (Hsplit "'an-cai', 'daehnick', 'bojowald', '" "', 'li-liang-cai-triton'])!")
    | apply (Hsplit "'an-cai', 'daehnick', 'bojowald', 'koning-delaroche-proton', '" "'])!")
    | by apply elem_of_nil in Hk ];
    reflexivity.
Qed.

End GenericDispatch.

(** ** The dispatch in exact arithmetic *)

Section ExactDispatch.
Import Exact.
Local Open Scope R_scope.

#[local] Existing Instance Exact.arith.

(** Every registered formula returns on a positive mass number, the
    Daehnick one on a non-negative energy. *)
Lemma registered_returns p f (E : R) zt at_ d :
  dict_get POTENTIALS p = Some f →
  (0 < at_)%Z → (p = DAEHNICK → 0 <= E) →
  (f E zt at_ d).2 = Ok tt.
Proof.
  intros Hf Hat HE. unfold POTENTIALS, dict_get in Hf.
  repeat case_decide; simplify_eq.
  - by rewrite an_cai_exact.
  - by rewrite daehnick_exact by auto.
  - by rewrite bojowald_exact.
  - by rewrite koning_delaroche_proton_exact.
  - by rewrite li_liang_cai_triton_exact.
Qed.

Lemma create_parameters_returns (E : R) zt at_ p :
  p ∈ keys POTENTIALS →
  (0 < at_)%Z → (p = DAEHNICK → 0 <= E) →
  ∃ ps, create_parameters E zt at_ p = Ok ps.
Proof.
  intros [f Hf]%dict_get_keys Hat HE.
  rewrite (create_parameters_registered _ _ _ _ f Hf).
  pose proof (registered_returns p f E zt at_ initial_params Hf Hat HE) as Hr.
  destruct (f E zt at_ initial_params) as [ps r]. simpl in Hr. subst r.
  by exists ps.
Qed.

(** Whenever a call returns, the mass number is positive. *)
Lemma create_parameters_positive (E : R) zt at_ p ps :
  create_parameters E zt at_ p = Ok ps → (0 < at_)%Z.
Proof.
  intros (f & Hf & Hrun)%create_parameters_ok_inv.
  destruct (Z.lt_trichotomy at_ 0) as [Hat|[->|Hat]]; [| |done].
  - pose proof (formula_at_negative p f E zt at_ initial_params Hf Hat) as H.
    by rewrite Hrun in H.
  - pose proof (formula_at_zero p f E zt initial_params Hf) as H.
    by rewrite Hrun in H.
Qed.

End ExactDispatch.

(** * Properties of [create_parameters] *)

Section KeySet.
Import Exact.
Local Open Scope R_scope.

(** C1, as the code has it.  Whenever [create_parameters] returns, in any
    arithmetic, the key set of the result is exactly the sixteen parameter
    keys; and in exact arithmetic it does return for each of the five
    keywords on every positive mass number (for [daehnick]: and every
    non-negative energy). *)
Theorem create_parameters_key_set :
  (∀ (A : Arith) (E : num) (zt at_ : Z) (potential : string) (ps : Dict),
     create_parameters E zt at_ potential = Ok ps →
     dom ps = parameter_keys)
  ∧ (∀ (E : R) (zt at_ : Z) (potential : string),
       potential ∈ keys (POTENTIALS (A := Exact.arith)) →
       (0 < at_)%Z → (potential = DAEHNICK → 0 <= E) →
       ∃ ps : gmap string R,
         create_parameters (A := Exact.arith) E zt at_ potential = Ok ps
         ∧ dom ps = parameter_keys).
Proof.
  split.
  - intros A E zt at_ potential ps. apply create_parameters_dom.
  - intros E zt at_ potential Hp Hat HE.
    destruct (create_parameters_returns E zt at_ potential Hp Hat HE)
      as [ps Hps].
    exists ps. split; [done|].
    by apply (create_parameters_dom (A := Exact.arith) E zt at_ potential).
Qed.

(** The key set of [create_parameters(20.0, 20, 40, "an-cai")]. *)
Lemma create_parameters_key_set_witness :
  ∃ ps : gmap string R,
    create_parameters (A := Exact.arith) 20.0 20 40 "an-cai" = Ok ps
    ∧ dom ps = parameter_keys.
Proof.
  apply (proj2 create_parameters_key_set 20.0 20%Z 40%Z "an-cai").
  - rewrite keys_POTENTIALS. by left.
  - reflexivity.
  - discriminate.
Defined.

(** C1 as stated fails: [create_parameters(-1.0, 20, 40, "daehnick")]
    returns no mapping, [math.sqrt] raises [ValueError] on the negative
    energy. *)
Lemma create_parameters_daehnick_negative_energy :
  create_parameters (A := Exact.arith) (-1.0) 20 40 "daehnick"
  = Raise ValueError.
Proof.
  rewrite (create_parameters_registered _ _ _ _ daehnick_potential)
    by reflexivity.
  pose proof (daehnick_negative_energy (-1.0) 20 40 initial_params) as H.
  destruct (daehnick_potential _ _ _ _) as [ps r]. simpl in H.
  rewrite H; [done | lia | lra].
Qed.

End KeySet.

Section InvalidIdentifier.
Import Exact.
Local Open Scope R_scope.

(** C2, as the code has it.  [create_parameters] raises its own exception,
    a bare [Exception] with the message built from the keyword, if and only
    if the keyword is not one of the five; no other [Exception] is raised;
    the message names each of the five keywords. *)
Theorem create_parameters_invalid_identifier
    (A : Arith) (E : num) (zt at_ : Z) (potential : string) :
  (create_parameters E zt at_ potential
     = Raise (Exception (not_allowed_message potential))
   ↔ potential ∉ keys POTENTIALS)
  ∧ (∀ msg, create_parameters E zt at_ potential = Raise (Exception msg) →
            msg = not_allowed_message potential)
  ∧ (∀ k, k ∈ keys POTENTIALS → mentions (not_allowed_message potential) k)
  ∧ keys POTENTIALS =
      [ "an-cai"; "daehnick"; "bojowald"; "koning-delaroche-proton";
        "li-liang-cai-triton" ].
Proof.
  split_and!.
  - split.
    + by intros [? _]%create_parameters_exception.
    + apply create_parameters_unregistered.
  - by intros msg [_ ?]%create_parameters_exception.
  - intros k. apply message_mentions_keys.
  - reflexivity.
Qed.

(** C2 as stated fails: registered keywords raise too, the errors of the
    arithmetic.  [create_parameters(-4.0, 6, 12, "daehnick")] raises
    [ValueError], [create_parameters(20.0, 0, 0, "an-cai")] raises
    [ZeroDivisionError]. *)
Lemma create_parameters_registered_raises :
  create_parameters (A := Exact.arith) (-4.0) 6 12 "daehnick"
    = Raise ValueError
  ∧ create_parameters (A := Exact.arith) 20.0 0 0 "an-cai"
    = Raise ZeroDivisionError.
Proof.
  split.
  - rewrite (create_parameters_registered _ _ _ _ daehnick_potential)
      by reflexivity.
    pose proof (daehnick_negative_energy (-4.0) 6 12 initial_params) as H.
    destruct (daehnick_potential _ _ _ _) as [ps r]. simpl in H.
    rewrite H; [done | lia | lra].
  - rewrite (create_parameters_registered _ _ _ _ an_cai_potential)
      by reflexivity.
    pose proof (formula_at_zero "an-cai" an_cai_potential 20.0 0
                  initial_params eq_refl) as H.
    destruct (an_cai_potential _ _ _ _) as [ps r]. simpl in H.
    by rewrite H.
Qed.

End InvalidIdentifier.

(** * Properties of the formulas in exact arithmetic *)

Ltac lookup_insert :=
  repeat first [rewrite lookup_insert_eq | rewrite lookup_insert_ne by done].

Ltac lookup_store := unfold Exact.store; cbn [foldl fst snd]; lookup_insert.

(** Running a formula that returned, in any arithmetic: every operation
    on the way returned. *)
Ltac generic_run H :=
  cbv beta iota zeta delta
    [an_cai_potential daehnick_potential bojowald_potential
     koning_delaroche_proton_potential li_liang_cai_triton_potential
     bind eval setitem ret e_add e_sub e_mul e_div e_pow e_gt
     math_exp math_sqrt if_else lift2 lift1 e_lit e_num e_int getitem] in H;
  repeat (case_match; try discriminate; []);
  repeat (simplify_eq;
          match goal with
          | H' : context [lookup ?k (insert ?k _ _)] |- _ =>
              rewrite lookup_insert_eq in H'
          end);
  simplify_eq.

Section ExactFormulas.
Import Exact.
Local Open Scope R_scope.

(** A formula that returns was given a positive mass number. *)
Lemma registered_positive p f (E : R) zt at_ (d d' : gmap string R) :
  dict_get POTENTIALS p = Some f →
  f E zt at_ d = (d', Ok tt) → (0 < at_)%Z.
Proof.
  intros Hf Hrun.
  destruct (Z.lt_trichotomy at_ 0) as [Hat|[->|Hat]]; [| |done].
  - pose proof (formula_at_negative p f E zt at_ d Hf Hat) as H.
    by rewrite Hrun in H.
  - pose proof (formula_at_zero p f E zt d Hf) as H.
    by rewrite Hrun in H.
Qed.

Lemma create_parameters_run p f (E : R) zt at_ items :
  dict_get POTENTIALS p = Some f →
  f E zt at_ initial_params = (store items initial_params, Ok tt) →
  create_parameters E zt at_ p = Ok (store items initial_params).
Proof.
  intros Hf Hrun. by rewrite (create_parameters_registered _ _ _ _ f Hf), Hrun.
Qed.

(** C3.  [create_parameters(20.0, 20, 40, "an-cai")] returns a mapping
    with [V] as computed by the expression of the scenario and [Vsoi],
    [asoi] zero; whenever the An-Cai formula returns, [V] is
    [91.85 - 0.249*E + 1.116e-4*E^2 + 0.642*zt/at^0.333] and the three
    spin-orbit-imaginary terms are zero; and it returns on every positive
    mass number. *)
Theorem an_cai_real_depth :
  (∃ ps : gmap string R,
     create_parameters 20.0 20 40 "an-cai" = Ok ps
     ∧ ps !! "V" = Some (91.85 - 0.249 * 20 + 1.116e-4 * 400
                         + 0.642 * 20 / Rpower 40 0.333)
     ∧ ps !! "Vsoi" = Some 0.0
     ∧ ps !! "asoi" = Some 0.0)
  ∧ (∀ (E : R) (zt at_ : Z) (d d' : gmap string R),
       an_cai_potential E zt at_ d = (d', Ok tt) →
       d' !! "V" = Some (91.85 - 0.249 * E + 1.116e-4 * E ^ 2
                         + 0.642 * IZR zt / Rpower (IZR at_) 0.333)
       ∧ d' !! "Vsoi" = Some 0.0
       ∧ d' !! "rsoi0" = Some 0.0
       ∧ d' !! "asoi" = Some 0.0)
  ∧ (∀ (E : R) (zt at_ : Z) (d : gmap string R),
       (0 < at_)%Z → (an_cai_potential E zt at_ d).2 = Ok tt).
Proof.
  split_and!.
  - eexists. split.
    { apply (create_parameters_run "an-cai" an_cai_potential);
        [reflexivity | by apply an_cai_exact]. }
    unfold an_cai_items. split_and!; lookup_store; [|done..].
    f_equal. lra.
  - intros E zt at_ d d' Hrun.
    assert (0 < at_)%Z as Hat
      by exact (registered_positive "an-cai" _ E zt at_ d d' eq_refl Hrun).
    rewrite an_cai_exact in Hrun by done. injection Hrun as <-.
    unfold an_cai_items. split_and!; lookup_store; [|done..].
    f_equal. lra.
  - intros E zt at_ d Hat. by rewrite an_cai_exact.
Qed.

(** C4.  Whenever the Bojowald formula returns, [Vi] is zero for an
    energy at or below 45 and [0.132*(E-45)] above, and [Vsi] is
    [7.8 + 1.04*at^0.333 - 0.712*Vi]; it returns on every positive mass
    number; [create_parameters(30.0, 6, 12, "bojowald")] has [Vi] zero and
    [Vsi] as in the scenario. *)
Theorem bojowald_imaginary_depths :
  (∀ (E : R) (zt at_ : Z) (d d' : gmap string R),
     bojowald_potential E zt at_ d = (d', Ok tt) →
     (E <= 45 → d' !! "Vi" = Some 0.0)
     ∧ (45 < E → d' !! "Vi" = Some (0.132 * (E - 45)))
     ∧ ∃ Vi, d' !! "Vi" = Some Vi
             ∧ d' !! "Vsi"
               = Some (7.8 + 1.04 * Rpower (IZR at_) 0.333 - 0.712 * Vi))
  ∧ (∀ (E : R) (zt at_ : Z) (d : gmap string R),
       (0 < at_)%Z → (bojowald_potential E zt at_ d).2 = Ok tt)
  ∧ (∃ ps : gmap string R,
       create_parameters 30.0 6 12 "bojowald" = Ok ps
       ∧ ps !! "Vi" = Some 0.0
       ∧ ps !! "Vsi" = Some (7.8 + 1.04 * Rpower 12 0.333 - 0.712 * 0.0)).
Proof.
  split_and!.
  - intros E zt at_ d d' Hrun.
    assert (0 < at_)%Z as Hat
      by exact (registered_positive "bojowald" _ E zt at_ d d' eq_refl Hrun).
    rewrite bojowald_exact in Hrun by done. injection Hrun as <-.
    unfold bojowald_items. split_and!.
    + intros HE. lookup_store. by rewrite py_gt_false by lra.
    + intros HE. lookup_store. rewrite py_gt_true by lra. f_equal. lra.
    + eexists. split; lookup_store; reflexivity.
  - intros E zt at_ d Hat. by rewrite bojowald_exact.
  - eexists. split.
    { apply (create_parameters_run "bojowald" bojowald_potential);
        [reflexivity | by apply bojowald_exact]. }
    unfold bojowald_items. rewrite py_gt_false by lra.
    split; lookup_store; reflexivity.
Qed.

(** C5.  Whenever the Koning-Delaroche formula returns, in any arithmetic,
    [rso0] and [rsoi0] hold the same value, and so do [ri0] and [r0];
    [create_parameters(50.0, 28, 58, "koning-delaroche-proton")] returns
    such a mapping. *)
Theorem koning_delaroche_proton_radii :
  (∀ (A : Arith) (E : num) (zt at_ : Z) (d d' : Dict),
     koning_delaroche_proton_potential E zt at_ d = (d', Ok tt) →
     d' !! "rso0" = d' !! "rsoi0" ∧ d' !! "ri0" = d' !! "r0"
     ∧ is_Some (d' !! "rso0") ∧ is_Some (d' !! "r0"))
  ∧ (∃ ps : gmap string R,
       create_parameters 50.0 28 58 "koning-delaroche-proton" = Ok ps
       ∧ ps !! "rso0" = ps !! "rsoi0" ∧ ps !! "ri0" = ps !! "r0"
       ∧ is_Some (ps !! "rso0") ∧ is_Some (ps !! "r0")).
Proof.
  assert (∀ (A : Arith) (E : num) (zt at_ : Z) (d d' : Dict),
     koning_delaroche_proton_potential E zt at_ d = (d', Ok tt) →
     d' !! "rso0" = d' !! "rsoi0" ∧ d' !! "ri0" = d' !! "r0"
     ∧ is_Some (d' !! "rso0") ∧ is_Some (d' !! "r0")) as Hgen.
  { intros A E zt at_ d d' Hrun. generic_run Hrun.
    split_and!; lookup_insert; by eauto. }
  split; [exact Hgen|].
  destruct (create_parameters_returns 50.0 28 58 "koning-delaroche-proton")
    as [ps Hps]; [rewrite keys_POTENTIALS; by repeat constructor | lia | done |].
  exists ps. split; [done|].
  apply create_parameters_ok_inv in Hps as (f & [= <-] & Hrun).
  by apply (Hgen Exact.arith) in Hrun.
Qed.

Lemma gaussian_centre N nt : gaussian N nt = exp (- ((N - nt) * 0.5) ^ 2).
Proof. unfold gaussian. f_equal. lra. Qed.

(** The sum of the Gaussians of width 0.5 centred at [centres]. *)
Definition gaussian_sum (centres : list R) (nt : R) : R :=
  foldr (fun N acc => exp (- ((N - nt) * 0.5) ^ 2) + acc) 0 centres.

(** The Daehnick formula in exact arithmetic.  Whenever it returns, the
    total imaginary strength [12 + 0.031*E] is split by [exp(-(E/100)^2)]
    between [Vsi] and [Vi], which add up to it, and the diffusenesses
    [ai] and [asi] carry the smoothing term [mu], the sum of the six
    Gaussians in [nt = at - zt]; it returns on every positive mass number
    and non-negative energy. *)
Lemma daehnick_split_exact :
  (∀ (E : R) (zt at_ : Z) (d d' : gmap string R),
     daehnick_potential E zt at_ d = (d', Ok tt) →
     let nt := IZR (at_ - zt) in
     let mu := gaussian_sum [8; 20; 28; 50; 82; 126] nt in
     ∃ Vi Vsi,
       d' !! "Vi" = Some Vi ∧ d' !! "Vsi" = Some Vsi
       ∧ Vsi = (12 + 0.031 * E) * exp (- (E / 100) ^ 2)
       ∧ Vi = (12 + 0.031 * E) * (1 - exp (- (E / 100) ^ 2))
       ∧ Vi + Vsi = 12 + 0.031 * E
       ∧ d' !! "ai" = Some (0.52 + 0.07 * Rpower (IZR at_) 0.333 - 0.04 * mu)
       ∧ d' !! "asi"
         = Some (0.52 + 0.07 * Rpower (IZR at_) 0.333 - 0.04 * mu))
  ∧ (∀ (E : R) (zt at_ : Z) (d : gmap string R),
       (0 < at_)%Z → 0 <= E → (daehnick_potential E zt at_ d).2 = Ok tt).
Proof.
  split.
  - intros E zt at_ d d' Hrun nt mu.
    assert (0 < at_)%Z as Hat
      by exact (registered_positive "daehnick" _ E zt at_ d d' eq_refl Hrun).
    assert (0 <= E) as HE.
    { destruct (Rle_dec 0 E) as [|HE]; [done|exfalso].
      pose proof (daehnick_negative_energy E zt at_ d Hat) as H.
      rewrite Hrun in H. by specialize (H ltac:(lra)). }
    rewrite daehnick_exact in Hrun by done. injection Hrun as <-.
    assert (exp (-1.0 * (E * 0.01) ^ 2) = exp (- (E / 100) ^ 2)) as Hbeta
      by (f_equal; lra).
    assert (daehnick_mu (at_ - zt) = mu) as Hmu.
    { unfold daehnick_mu, mu, gaussian_sum. cbn [foldr]. fold nt.
      rewrite !gaussian_centre.
      replace 8.0 with 8 by lra. replace 20.0 with 20 by lra.
      replace 28.0 with 28 by lra. replace 50.0 with 50 by lra.
      replace 82.0 with 82 by lra. replace 126.0 with 126 by lra.
      lra. }
    set (e := exp (- (E / 100) ^ 2)) in *.
    set (a3 := Rpower (IZR at_) 0.333).
    assert (store (daehnick_items E zt at_) d !! "Vi"
              = Some ((12.0 + 0.031 * E) * (1.0 - e))
            ∧ store (daehnick_items E zt at_) d !! "Vsi"
              = Some ((12.0 + 0.031 * E) * e)
            ∧ store (daehnick_items E zt at_) d !! "ai"
              = Some (0.52 + 0.07 * a3 - 0.04 * mu)
            ∧ store (daehnick_items E zt at_) d !! "asi"
              = Some (0.52 + 0.07 * a3 - 0.04 * mu))
      as (HVi & HVsi & Hai & Hasi).
    { cbv beta zeta delta [daehnick_items]. rewrite Hbeta, Hmu.
      split_and!; lookup_store; reflexivity. }
    exists ((12.0 + 0.031 * E) * (1.0 - e)), ((12.0 + 0.031 * E) * e).
    split_and!; [done | done | lra | lra | lra | done | done].
  - intros E zt at_ d Hat HE. by rewrite daehnick_exact.
Qed.

Lemma cube_root_cubed x : 0 < x → Rpower x (1.0 / 3.0) ^ 3 = x.
Proof.
  intros Hx. rewrite <- (Rpower_pow 3) by apply Rpower_pos.
  rewrite Rpower_mult. replace (1.0 / 3.0 * INR 3) with 1 by (simpl; lra).
  by apply Rpower_1.
Qed.

(** No mass number makes the two [zt]-dependent terms of [V] cancel: that
    would need [at^2 = (8.7502/1.0474)^3], strictly between 24^2 and 25^2. *)
Lemma li_liang_cai_no_cancellation (at_ : Z) :
  (0 < at_)%Z →
  1.0474 * IZR at_ <> 8.7502 * Rpower (IZR at_) (1.0 / 3.0).
Proof.
  intros Hat Heq. pose proof (IZR_lt _ _ Hat) as Hx.
  pose proof (cube_root_cubed (IZR at_) Hx) as Hcube.
  set (x := IZR at_) in *. set (a3 := Rpower x (1.0 / 3.0)) in *.
  assert (1.0474 ^ 3 * x ^ 2 = 8.7502 ^ 3) as Hsq.
  { apply (Rmult_eq_reg_l x); [|lra].
    transitivity ((1.0474 * x) ^ 3); [ring|].
    rewrite Heq. transitivity (8.7502 ^ 3 * a3 ^ 3); [ring|].
    rewrite Hcube. ring. }
  destruct (Z_le_gt_dec at_ 24) as [Hle|Hgt].
  - assert (x <= 24) by (apply (IZR_le at_ 24); lia). nra.
  - assert (25 <= x) by (apply (IZR_le 25 at_); lia). nra.
Qed.

(** The Li-Liang-Cai formula in exact arithmetic.  With [zt = at] the
    neutron number is zero and the asymmetry term [(nt - zt)/at] is [-1]:
    whenever the formula returns, [V] and [Vsi] are as given; they differ
    from those of any call with the same energy and mass number and a
    positive neutron number; the formula returns on every positive mass
    number. *)
Lemma li_liang_cai_symmetric_exact :
  (∀ (E : R) (at_ : Z) (d d' : gmap string R),
     li_liang_cai_triton_potential E at_ at_ d = (d', Ok tt) →
     IZR ((at_ - at_) - at_) / IZR at_ = -1
     ∧ d' !! "V" = Some (137.6 - 0.1456 * E + 0.0436 * E ^ 2
                         + 4.3751 * (-1)
                         + 1.0474 * IZR at_ / Rpower (IZR at_) (1 / 3))
     ∧ d' !! "Vsi" = Some (37.06 - 0.6451 * E - 47.19 * (-1)))
  ∧ (∀ (E : R) (zt at_ : Z) (d1 d1' d2 d2' : gmap string R),
       li_liang_cai_triton_potential E at_ at_ d1 = (d1', Ok tt) →
       li_liang_cai_triton_potential E zt at_ d2 = (d2', Ok tt) →
       (0 < at_ - zt)%Z →
       d1' !! "V" ≠ d2' !! "V" ∧ d1' !! "Vsi" ≠ d2' !! "Vsi")
  ∧ (∀ (E : R) (zt at_ : Z) (d : gmap string R),
       (0 < at_)%Z → (li_liang_cai_triton_potential E zt at_ d).2 = Ok tt).
Proof.
  assert (∀ (E : R) (zt at_ : Z) (d d' : gmap string R),
    li_liang_cai_triton_potential E zt at_ d = (d', Ok tt) →
    (0 < at_)%Z
    ∧ d' !! "V" = Some (137.6 - 0.1456 * E + 0.0436 * E ^ 2
                        + 4.3751 * IZR (at_ - zt - zt) / IZR at_
                        + 1.0474 * IZR zt / Rpower (IZR at_) (1.0 / 3.0))
    ∧ d' !! "Vsi" = Some (37.06 - 0.6451 * E
                          - 47.19 * IZR (at_ - zt - zt) / IZR at_))
    as Hvalues.
  { intros E zt at_ d d' Hrun.
    assert (0 < at_)%Z as Hat
      by exact (registered_positive "li-liang-cai-triton" _ E zt at_ d d'
                  eq_refl Hrun).
    rewrite li_liang_cai_triton_exact in Hrun by done. injection Hrun as <-.
    unfold li_liang_cai_triton_items.
    split_and!; [done | lookup_store; reflexivity..]. }
  split_and!.
  - intros E at_ d d' (Hat & HV & HVsi)%Hvalues.
    pose proof (IZR_lt _ _ Hat) as Hx.
    assert (IZR (at_ - at_ - at_) / IZR at_ = -1) as Hterm.
    { rewrite !minus_IZR. field. lra. }
    split_and!; [done | |].
    + rewrite HV. f_equal.
      replace (1 / 3) with (1.0 / 3.0) by lra.
      replace (4.3751 * IZR (at_ - at_ - at_) / IZR at_)
        with (4.3751 * (IZR (at_ - at_ - at_) / IZR at_)) by (field; lra).
      by rewrite Hterm.
    + rewrite HVsi. f_equal.
      replace (47.19 * IZR (at_ - at_ - at_) / IZR at_)
        with (47.19 * (IZR (at_ - at_ - at_) / IZR at_)) by (field; lra).
      by rewrite Hterm.
  - intros E zt at_ d1 d1' d2 d2' (Hat & HV1 & HVsi1)%Hvalues
      (_ & HV2 & HVsi2)%Hvalues Hnt.
    pose proof (IZR_lt _ _ Hat) as Hx.
    pose proof (IZR_lt _ _ Hnt) as Hn. rewrite minus_IZR in Hn.
    pose proof (li_liang_cai_no_cancellation at_ Hat) as Hno.
    pose proof (Rpower_pos (IZR at_) (1.0 / 3.0)) as Ha3.
    rewrite HV1, HV2, HVsi1, HVsi2, !minus_IZR.
    set (x := IZR at_) in *. set (z := IZR zt) in *.
    set (a3 := Rpower x (1.0 / 3.0)) in *.
    assert (x * / x = 1) as Hxx by (field; lra).
    split; intros [= Heq]; unfold Rdiv in Heq.
    + apply Hno.
      assert (1.0474 * (x - z) * / a3 = 8.7502 * (x - z) * / x) as Hm by lra.
      assert (1.0474 * (x - z) * x = 8.7502 * (x - z) * a3) as Hm'.
      { transitivity (1.0474 * (x - z) * / a3 * (x * a3)); [field; lra|].
        rewrite Hm. field; lra. }
      assert ((x - z) * (1.0474 * x - 8.7502 * a3) = 0) as Hprod by lra.
      apply Rmult_integral in Hprod as [?|?]; lra.
    + assert (z * / x = 1) as Hzx by lra.
      assert (z = x); [|lra].
      transitivity (z * / x * x); [field; lra|]. rewrite Hzx. lra.
  - intros E zt at_ d Hat. by rewrite li_liang_cai_triton_exact.
Qed.

End ExactFormulas.

(** * Determinism and independence of the initial contents *)

Section Effects.
Context {A : Arith}.
Implicit Types (d : Dict).

(** The whole effect of a registered formula: a set of items [ws] and an
    outcome [r], neither depending on the dictionary it is run in. *)
Lemma registered_effect p f E zt at_ :
  dict_get POTENTIALS p = Some f →
  ∃ (ws : Dict) (r : result unit),
    (r = Ok tt → dom ws = parameter_keys)
    ∧ ∀ d, f E zt at_ d = (ws ∪ d, r).
Proof.
  intros Hf.
  destruct (flows_run _ _ (registered_flows p f E zt at_ Hf))
    as (ws & r & Hdom & Hrun).
  exists ws, r. split; [|done]. intros ->. by apply (Hdom tt).
Qed.


End Effects.

(** C9.  A registered formula is deterministic.  A second call with the
    same arguments on the mapping the first call left stores and returns
    (or raises) the same again; two calls on any two mappings have the same
    outcome and, when they return, leave the same value under each of the
    sixteen keys; and two results of [create_parameters] on the same
    arguments are the same mapping. *)
Theorem formulas_deterministic :
  ∀ (A : Arith) (p : string) (f : num -> Z -> Z -> M unit)
    (E : num) (zt at_ : Z),
    dict_get POTENTIALS p = Some f →
    (∀ (d d1 : Dict) (r : result unit),
       f E zt at_ d = (d1, r) → f E zt at_ d1 = (d1, r))
    ∧ (∀ d d' : Dict,
         (f E zt at_ d).2 = (f E zt at_ d').2
         ∧ ((f E zt at_ d).2 = Ok tt →
            ∀ k, k ∈ parameter_keys →
                 (f E zt at_ d).1 !! k = (f E zt at_ d').1 !! k
                 ∧ is_Some ((f E zt at_ d).1 !! k)))
    ∧ (∀ ps ps' : Dict,
         create_parameters E zt at_ p = Ok ps →
         create_parameters E zt at_ p = Ok ps' →
         ps = ps' ∧ dom ps = parameter_keys).
Proof.
  intros A p f E zt at_ Hf.
  destruct (registered_effect p f E zt at_ Hf) as (ws & r & Hdom & Hrun).
  split_and!.
  - intros d d1 r1. rewrite !Hrun. intros [= <- <-].
    by rewrite (assoc_L (∪)), (idemp (∪) ws).
  - intros d d'. rewrite !Hrun. simpl. split; [done|].
    intros -> k Hk. rewrite <- (Hdom eq_refl) in Hk.
    apply elem_of_dom in Hk as [v Hv].
    by rewrite !(lookup_union_Some_l _ _ _ _ Hv).
  - intros ps ps' Hps Hps'. split; [congruence|].
    by eapply create_parameters_dom.
Qed.


(** * The theorems at concrete inputs *)

Section Witnesses.
Import Exact.
Local Open Scope R_scope.

(** The An-Cai formula returns on [(20.0, 20, 40)]. *)
Lemma an_cai_real_depth_witness :
  (0 < 40)%Z ∧ (an_cai_potential (A := Exact.arith) 20.0 20 40 ∅).2 = Ok tt.
Proof.
  split; [reflexivity|].
  apply (proj2 (proj2 an_cai_real_depth) 20.0 20%Z 40%Z ∅). reflexivity.
Defined.

(** The Bojowald formula returns on [(30.0, 6, 12)]. *)
Lemma bojowald_imaginary_depths_witness :
  (0 < 12)%Z ∧ (bojowald_potential (A := Exact.arith) 30.0 6 12 ∅).2 = Ok tt.
Proof.
  split; [reflexivity|].
  apply (proj1 (proj2 bojowald_imaginary_depths) 30.0 6%Z 12%Z ∅).
  reflexivity.
Defined.

(** The radii of the Koning-Delaroche formula on [(50.0, 28, 58)]. *)
Lemma koning_delaroche_proton_radii_witness :
  koning_delaroche_proton_potential (A := Exact.arith) 50.0 28 58 ∅
    = (store (koning_delaroche_proton_items 50.0 28 58) ∅, Ok tt)
  ∧ store (koning_delaroche_proton_items 50.0 28 58) ∅ !! "rso0"
    = store (koning_delaroche_proton_items 50.0 28 58) ∅ !! "rsoi0".
Proof.
  assert (koning_delaroche_proton_potential (A := Exact.arith) 50.0 28 58 ∅
          = (store (koning_delaroche_proton_items 50.0 28 58) ∅, Ok tt))
    as Hrun by (by apply koning_delaroche_proton_exact).
  split; [exact Hrun|].
  exact (proj1 (proj1 koning_delaroche_proton_radii Exact.arith
                  50.0 28%Z 58%Z ∅ _ Hrun)).
Defined.

(** The An-Cai formula, run twice from the empty mapping. *)
Lemma formulas_deterministic_witness :
  dict_get (POTENTIALS (A := Exact.arith)) "an-cai" = Some an_cai_potential
  ∧ ∀ (d d1 : gmap string R) (r : result unit),
      an_cai_potential 20.0 20 40 d = (d1, r) →
      an_cai_potential 20.0 20 40 d1 = (d1, r).
Proof.
  split; [reflexivity|].
  exact (proj1 (formulas_deterministic Exact.arith "an-cai" an_cai_potential
                  20.0 20%Z 40%Z eq_refl)).
Defined.


End Witnesses.

(** * The parameters as functions of the energy *)

Section Energy.
Import Exact.
Local Open Scope R_scope.

(** The value [create_parameters(E, zt, at, potential)[key]], when the call
    returns and the result has the key. *)
Definition parameter (potential key : string) (zt at_ : Z) (E : R)
  : option R :=
  match create_parameters E zt at_ potential with
  | Ok ps => ps !! key
  | Raise _ => None
  end.

(** Continuity and differentiability of a partial function at a point of
    its domain, relative to the domain. *)
Definition continuous_at (f : R -> option R) (x0 : R) : Prop :=
  ∀ y0, f x0 = Some y0 →
  ∀ eps, 0 < eps →
  ∃ delta, 0 < delta ∧
    ∀ x y, f x = Some y → Rabs (x - x0) < delta → Rabs (y - y0) < eps.

Definition differentiable_at (f : R -> option R) (x0 : R) : Prop :=
  ∃ y0 l, f x0 = Some y0 ∧
  ∀ eps, 0 < eps →
  ∃ delta, 0 < delta ∧
    ∀ h y, h <> 0 → Rabs h < delta → f (x0 + h) = Some y →
           Rabs ((y - y0) / h - l) < eps.

(** The closed forms of the five formulas. *)
Definition closed_forms : list (string * (R -> Z -> Z -> list (string * R))) :=
  [ (AN_CAI, an_cai_items);
    (DAEHNICK, daehnick_items);
    (BOJOWALD, bojowald_items);
    (KONING_DELAROCHE_PROTON, koning_delaroche_proton_items);
    (LI_LIANG_CAI_TRITON, li_liang_cai_triton_items) ].

(** The outputs that have a corner or an unbounded slope in the energy:
    [bojowald]'s [Vi], and [Vsi] which is computed from it, at the
    threshold 45; [daehnick]'s two radii in [sqrt(E)] at 0. *)
Definition kink (p k : string) (E0 : R) : Prop :=
  (p = BOJOWALD ∧ (k = "Vi" ∨ k = "Vsi") ∧ E0 = 45)
  ∨ (p = DAEHNICK ∧ (k = "ri0" ∨ k = "rsi0") ∧ E0 = 0).

End Energy.

Ltac closed_form Hit :=
  unfold closed_forms, dict_get in Hit;
  repeat case_decide; try discriminate Hit;
  injection Hit as <-.

Ltac items_unfold :=
  unfold Exact.an_cai_items, Exact.daehnick_items, Exact.bojowald_items,
    Exact.koning_delaroche_proton_items, Exact.li_liang_cai_triton_items.

Ltac items_of p :=
  lazymatch p with
  | AN_CAI => constr:(Exact.an_cai_items)
  | DAEHNICK => constr:(Exact.daehnick_items)
  | BOJOWALD => constr:(Exact.bojowald_items)
  | KONING_DELAROCHE_PROTON => constr:(Exact.koning_delaroche_proton_items)
  | LI_LIANG_CAI_TRITON => constr:(Exact.li_liang_cai_triton_items)
  end.

Section ClosedForms.
Import Exact.
Local Open Scope R_scope.

Lemma create_parameters_closed_form (E : R) zt at_ p ps :
  create_parameters E zt at_ p = Ok ps →
  ∃ items,
    dict_get closed_forms p = Some items
    ∧ (0 < at_)%Z ∧ (p = DAEHNICK → 0 <= E)
    ∧ ps = store (items E zt at_) initial_params.
Proof.
  intros (f & Hf & Hrun)%create_parameters_ok_inv.
  pose proof (registered_positive p f E zt at_ _ _ Hf Hrun) as Hat.
  unfold POTENTIALS, dict_get in Hf.
  repeat case_decide; try discriminate Hf; injection Hf as <-; subst p.
  - exists an_cai_items. rewrite an_cai_exact in Hrun by done.
    apply pair_equal_spec in Hrun as [<- _]. by split_and!.
  - exists daehnick_items.
    assert (0 <= E) as HE.
    { destruct (Rle_dec 0 E) as [|HE]; [done|exfalso].
      pose proof (daehnick_negative_energy E zt at_ initial_params Hat)
        as Hneg.
      rewrite Hrun in Hneg. by specialize (Hneg ltac:(lra)). }
    rewrite daehnick_exact in Hrun by done.
    apply pair_equal_spec in Hrun as [<- _]. by split_and!.
  - exists bojowald_items. rewrite bojowald_exact in Hrun by done.
    apply pair_equal_spec in Hrun as [<- _]. by split_and!.
  - exists koning_delaroche_proton_items.
    rewrite koning_delaroche_proton_exact in Hrun by done.
    apply pair_equal_spec in Hrun as [<- _]. by split_and!.
  - exists li_liang_cai_triton_items.
    rewrite li_liang_cai_triton_exact in Hrun by done.
    apply pair_equal_spec in Hrun as [<- _]. by split_and!.
Qed.

Lemma closed_form_create_parameters (E : R) zt at_ p items :
  dict_get closed_forms p = Some items →
  (0 < at_)%Z → (p = DAEHNICK → 0 <= E) →
  create_parameters E zt at_ p = Ok (store (items E zt at_) initial_params).
Proof.
  intros Hit Hat HE. closed_form Hit; subst p.
  - apply (create_parameters_run _ an_cai_potential); [done|].
    by apply an_cai_exact.
  - apply (create_parameters_run _ daehnick_potential); [done|].
    by apply daehnick_exact; auto.
  - apply (create_parameters_run _ bojowald_potential); [done|].
    by apply bojowald_exact.
  - apply (create_parameters_run _ koning_delaroche_proton_potential);
      [done|].
    by apply koning_delaroche_proton_exact.
  - apply (create_parameters_run _ li_liang_cai_triton_potential); [done|].
    by apply li_liang_cai_triton_exact.
Qed.

Lemma parameter_inv p k zt at_ E y :
  parameter p k zt at_ E = Some y →
  ∃ items,
    dict_get closed_forms p = Some items
    ∧ (0 < at_)%Z ∧ (p = DAEHNICK → 0 <= E)
    ∧ store (items E zt at_) initial_params !! k = Some y
    ∧ k ∈ parameter_keys.
Proof.
  unfold parameter.
  destruct (create_parameters (A := Exact.arith) E zt at_ p) as [ps|] eqn:Hps;
    [|done].
  intros Hk.
  pose proof (create_parameters_dom (A := Exact.arith) _ _ _ _ _ Hps) as Hdom.
  apply create_parameters_closed_form in Hps as (items & Hit & Hat & HE & ->).
  exists items. split_and!; [done..|].
  rewrite <- Hdom. apply elem_of_dom. by eexists.
Qed.

Lemma parameter_closed_form p k zt at_ E items :
  dict_get closed_forms p = Some items →
  (0 < at_)%Z → (p = DAEHNICK → 0 <= E) →
  parameter p k zt at_ E = store (items E zt at_) initial_params !! k.
Proof.
  intros Hit Hat HE. unfold parameter.
  by rewrite (closed_form_create_parameters E zt at_ p items).
Qed.

Lemma parameter_defined p k zt at_ E :
  p ∈ keys POTENTIALS → k ∈ parameter_keys →
  (0 < at_)%Z → (p = DAEHNICK → 0 <= E) →
  is_Some (parameter p k zt at_ E).
Proof.
  intros Hp Hk Hat HE. unfold parameter.
  destruct (create_parameters_returns E zt at_ p Hp Hat HE) as [ps Hps].
  pose proof (create_parameters_dom (A := Exact.arith) _ _ _ _ _ Hps) as Hdom.
  rewrite Hps. apply (elem_of_dom (D := gset string) ps k). by rewrite Hdom.
Qed.

Lemma parameter_value p k zt at_ items (g : R → R) :
  dict_get closed_forms p = Some items →
  (∀ E, store (items E zt at_) initial_params !! k = Some (g E)) →
  ∀ E y, parameter p k zt at_ E = Some y →
         (p = DAEHNICK → 0 <= E) ∧ y = g E.
Proof.
  intros Hit Hg E y (items' & Hit' & _ & HE & Hl & _)%parameter_inv.
  rewrite Hit in Hit'. injection Hit' as <-.
  rewrite Hg in Hl. by injection Hl.
Qed.

(** The conditional of [bojowald] as a hinge function. *)
Lemma hinge E :
  (if py_gt E 45.0 then 0.132 * (E - 45.0) else 0.0)
  = 0.066 * ((E - 45) + Rabs (E - 45)).
Proof.
  unfold py_gt. destruct (Rlt_dec 45.0 E).
  - rewrite Rabs_right by lra. lra.
  - rewrite Rabs_left1 by lra. lra.
Qed.

End ClosedForms.

(** The value under a key as an explicit function [g] of the energy. *)
Ltac value_function g Hg :=
  lazymatch goal with
  | |- context [parameter ?p ?k ?zt ?at_] =>
      let items := items_of p in
      let Hl := fresh "Hl" in
      evar (g : R → R);
      assert (∀ E, Exact.store (items E zt at_) initial_params !! k = Some (g E))
        as Hl
        by (intros ?; items_unfold; rewrite ?hinge; lookup_store; subst g;
            reflexivity);
      pose proof (parameter_value p k zt at_ items g eq_refl Hl) as Hg;
      clear Hl
  end.

Section Regularity.
Import Exact.
Local Open Scope R_scope.

Lemma continuous_at_of_pt (f : R -> option R) (g : R -> R) (D : R -> Prop) x0 :
  (∀ x y, f x = Some y → D x ∧ y = g x) →
  (D x0 → continuity_pt g x0) →
  continuous_at f x0.
Proof.
  intros Hfg Hg y0 H0 eps Heps.
  destruct (Hfg _ _ H0) as [HD ->].
  destruct (Hg HD eps Heps) as (delta & Hdelta & Hlim).
  exists delta. split; [done|]. intros x y [_ ->]%Hfg Hx.
  destruct (Req_dec_T x0 x) as [<-|Hne].
  - unfold Rminus. rewrite Rplus_opp_r, Rabs_R0. lra.
  - apply (Hlim x). split; [by split|]. exact Hx.
Qed.

Lemma parameter_continuous p k zt at_ E0 :
  continuous_at (parameter p k zt at_) E0.
Proof.
  intros y0 H0.
  destruct (parameter_inv _ _ _ _ _ _ H0)
    as (items & Hit & Hat & HE0 & Hlook & Hk).
  clear Hlook. revert y0 H0. change (continuous_at (parameter p k zt at_) E0).
  pose proof (IZR_lt _ _ Hat) as Hx.
  unfold parameter_keys in Hk.
  closed_form Hit; subst p;
    repeat (apply elem_of_union in Hk as [Hk|Hk]);
    apply elem_of_singleton in Hk; subst k.
  all: value_function g Hg.
  all: apply (continuous_at_of_pt _ g _ _ Hg).
  all: intros _; subst g; clear Hg.
  all: try specialize (HE0 eq_refl).
  all: try reg.
  all: try nonzero.
Qed.

Lemma differentiable_at_of_pt (f : R -> option R) (g : R -> R)
    (D : R -> Prop) x0 y0 :
  (∀ x y, f x = Some y → D x ∧ y = g x) →
  f x0 = Some y0 →
  derivable_pt g x0 →
  differentiable_at f x0.
Proof.
  intros Hfg H0 [l Hl].
  exists y0, l. split; [done|]. intros eps Heps.
  destruct (Hl eps Heps) as [delta Hdelta].
  exists delta. split; [apply cond_pos|].
  intros h y Hh Hlt [_ ->]%Hfg.
  destruct (Hfg _ _ H0) as [_ ->]. by apply Hdelta.
Qed.

(** A hinge: constant on one side of [x0], affine with another slope on
    the other. *)
Lemma hinge_not_differentiable (f : R -> option R) x0 c0 c1 :
  c1 <> 0 →
  (∀ x, f x = Some (c0 + c1 * ((x - x0) + Rabs (x - x0)))) →
  ¬ differentiable_at f x0.
Proof.
  intros Hc1 Hf (y0 & l & H0 & Hlim).
  rewrite Hf in H0. injection H0 as <-.
  assert (0 < Rabs c1 / 2) as Heps by (pose proof (Rabs_pos_lt c1 Hc1); lra).
  destruct (Hlim _ Heps) as (delta & Hdelta & Hq).
  assert (Rabs (delta / 2) < delta) as Hr by (rewrite Rabs_right; lra).
  assert (Rabs (- (delta / 2)) < delta) as Hl by (rewrite Rabs_left; lra).
  pose proof (Hq (delta / 2) _ ltac:(lra) Hr (Hf _)) as Hright.
  pose proof (Hq (- (delta / 2)) _ ltac:(lra) Hl (Hf _)) as Hleft.
  replace (x0 + delta / 2 - x0) with (delta / 2) in Hright by lra.
  replace (x0 + - (delta / 2) - x0) with (- (delta / 2)) in Hleft by lra.
  replace (x0 - x0) with 0 in Hright, Hleft by lra.
  rewrite Rabs_R0 in Hright, Hleft.
  rewrite (Rabs_right (delta / 2)) in Hright by lra.
  rewrite (Rabs_left (- (delta / 2))) in Hleft by lra.
  replace ((c0 + c1 * (delta / 2 + delta / 2) - (c0 + c1 * (0 + 0)))
           / (delta / 2)) with (2 * c1) in Hright by (field; lra).
  replace ((c0 + c1 * (- (delta / 2) + - - (delta / 2))
            - (c0 + c1 * (0 + 0))) / - (delta / 2)) with 0 in Hleft
    by (field; lra).
  revert Hright Hleft Heps. unfold Rabs.
  repeat destruct (Rcase_abs _); lra.
Qed.

(** A square root at the edge of its domain: the slope is unbounded. *)
Lemma sqrt_not_differentiable (f : R -> option R) c0 c1 :
  c1 <> 0 →
  (∀ x, 0 <= x → f x = Some (c0 + c1 * sqrt x)) →
  ¬ differentiable_at f 0.
Proof.
  intros Hc1 Hf (y0 & l & H0 & Hlim).
  rewrite Hf, sqrt_0 in H0 by lra. injection H0 as <-.
  destruct (Hlim 1 ltac:(lra)) as (delta & Hdelta & Hq).
  pose proof (Rabs_pos_lt c1 Hc1) as Hc. pose proof (Rabs_pos l) as Hl.
  set (t := Rmin (Rabs c1 / (2 * (Rabs l + 1))) (Rmin (delta / 2) (1 / 2))).
  assert (0 < t) as Ht.
  { unfold t. repeat apply Rmin_glb_lt; try lra.
    apply Rdiv_lt_0_compat; lra. }
  assert (t <= Rabs c1 / (2 * (Rabs l + 1))) as Ht1 by apply Rmin_l.
  assert (t <= delta / 2) as Ht2
    by (unfold t; etransitivity; [apply Rmin_r | apply Rmin_l]).
  assert (t <= 1 / 2) as Ht3
    by (unfold t; etransitivity; [apply Rmin_r | apply Rmin_r]).
  assert (0 < t * t < delta) as Htt by nra.
  assert (f (0 + t * t) = Some (c0 + c1 * sqrt (0 + t * t))) as Hv
    by (apply Hf; lra).
  assert (Rabs (t * t) < delta) as Hsmall by (rewrite Rabs_right; lra).
  pose proof (Hq (t * t) _ ltac:(lra) Hsmall Hv) as Hquot.
  rewrite Rplus_0_l, sqrt_square in Hquot by lra.
  replace ((c0 + c1 * t - (c0 + c1 * 0)) / (t * t)) with (c1 / t) in Hquot
    by (field; lra).
  assert (2 * (Rabs l + 1) <= Rabs (c1 / t)) as Hbig.
  { replace (Rabs (c1 / t)) with (Rabs c1 / t).
    2:{ unfold Rdiv. rewrite Rabs_mult. f_equal. symmetry.
        apply Rabs_right. left. by apply Rinv_0_lt_compat. }
    apply (Rmult_le_reg_r t); [done|].
    replace (Rabs c1 / t * t) with (Rabs c1) by (field; lra).
    apply (Rmult_le_compat_r (2 * (Rabs l + 1))) in Ht1; [|lra].
    replace (Rabs c1 / (2 * (Rabs l + 1)) * (2 * (Rabs l + 1)))
      with (Rabs c1) in Ht1 by (field; lra).
    lra. }
  pose proof (Rabs_triang_inv (c1 / t) l). lra.
Qed.

Lemma differentiable_positive p k zt at_ E0 :
  differentiable_at (parameter p k zt at_) E0 → (0 < at_)%Z.
Proof. by intros (y0 & l & (? & ? & ? & _)%parameter_inv & _). Qed.

Lemma bojowald_kink k zt at_ :
  k = "Vi" ∨ k = "Vsi" →
  ¬ differentiable_at (parameter BOJOWALD k zt at_) 45.
Proof.
  intros Hk Hd. pose proof (differentiable_positive _ _ _ _ _ Hd) as Hat.
  set (a3 := Rpower (IZR at_) 0.333).
  destruct Hk as [->| ->].
  - apply (hinge_not_differentiable _ 45 0 0.066) in Hd; [done | lra |].
    intros E.
    rewrite (parameter_closed_form _ _ _ _ _ bojowald_items) by done.
    unfold bojowald_items. rewrite hinge. lookup_store. f_equal. lra.
  - apply (hinge_not_differentiable _ 45 (7.8 + 1.04 * a3) (-0.712 * 0.066))
      in Hd; [done | lra |].
    intros E.
    rewrite (parameter_closed_form _ _ _ _ _ bojowald_items) by done.
    unfold bojowald_items. rewrite hinge. lookup_store. f_equal.
    fold a3. lra.
Qed.

Lemma daehnick_kink k zt at_ :
  k = "ri0" ∨ k = "rsi0" →
  ¬ differentiable_at (parameter DAEHNICK k zt at_) 0.
Proof.
  intros Hk Hd. pose proof (differentiable_positive _ _ _ _ _ Hd) as Hat.
  apply (sqrt_not_differentiable _ 1.376 (-0.01)) in Hd; [done | lra |].
  intros E HE.
  rewrite (parameter_closed_form _ _ _ _ _ daehnick_items) by done.
  unfold daehnick_items.
  destruct Hk as [->| ->]; lookup_store; f_equal; lra.
Qed.

Lemma parameter_differentiable p k zt at_ E0 y0 :
  parameter p k zt at_ E0 = Some y0 →
  differentiable_at (parameter p k zt at_) E0 ↔ ¬ kink p k E0.
Proof.
  intros H0.
  destruct (parameter_inv _ _ _ _ _ _ H0)
    as (items & Hit & Hat & HE0 & _ & Hk).
  pose proof (IZR_lt _ _ Hat) as Hx.
  split.
  - intros Hd [(-> & Hk' & ->)|(-> & Hk' & ->)].
    + by apply (bojowald_kink k zt at_).
    + by apply (daehnick_kink k zt at_).
  - intros Hnk. revert y0 H0.
    unfold parameter_keys in Hk.
    closed_form Hit; subst p;
      repeat (apply elem_of_union in Hk as [Hk|Hk]);
      apply elem_of_singleton in Hk; subst k.
    all: value_function g Hg.
    all: intros y1 Hy1.
    all: apply (differentiable_at_of_pt _ g _ _ y1 Hg Hy1).
    all: subst g; clear Hg.
    all: try specialize (HE0 eq_refl).
    all: try assert (E0 - 45 <> 0)
           by (intros ?; apply Hnk; left; split_and!; [done | by eauto | lra]).
    all: try assert (0 < E0)
           by (destruct (Req_dec_T E0 0) as [->|];
               [exfalso; apply Hnk; right; split_and!; by eauto | lra]).
    all: try reg.
    all: try nonzero.
Qed.

End Regularity.

(** * Dependence on the energy *)

Section EnergyDependence.
Import Exact.
Local Open Scope R_scope.

(** C8, as the code has it.  With [zt] and [at] fixed, each of the sixteen
    outputs of each of the five formulas is a function of [E] that is
    defined for every [E] when [at >= 1] (for [daehnick]: every [E >= 0],
    since [math.sqrt(E)] raises below) and is continuous at every point
    where it is defined.  [bojowald]'s [Vi] is 0 at and below 45 and
    [0.132 * (E - 45)] above.  An output is differentiable at a point of
    its domain exactly when the point is not one of the [kink]s: [Vi] of
    [bojowald] at 45, but also [Vsi] of [bojowald] at 45, which is
    computed from [Vi], and [ri0] and [rsi0] of [daehnick] at 0. *)
Theorem parameters_continuous_in_energy :
  (∀ p k zt at_ E,
     p ∈ keys POTENTIALS → k ∈ parameter_keys →
     (0 < at_)%Z → (p = DAEHNICK → 0 <= E) →
     is_Some (parameter p k zt at_ E))
  ∧ (∀ p k zt at_ E0, continuous_at (parameter p k zt at_) E0)
  ∧ (∀ zt at_ E,
       (0 < at_)%Z →
       parameter BOJOWALD "Vi" zt at_ E
       = Some (if Rle_dec E 45 then 0 else 0.132 * (E - 45)))
  ∧ (∀ p k zt at_ E0,
       is_Some (parameter p k zt at_ E0) →
       differentiable_at (parameter p k zt at_) E0 ↔ ¬ kink p k E0).
Proof.
  split_and!.
  - apply parameter_defined.
  - apply parameter_continuous.
  - intros zt at_ E Hat.
    rewrite (parameter_closed_form _ _ _ _ _ bojowald_items) by done.
    unfold bojowald_items. lookup_store. unfold py_gt.
    destruct (Rlt_dec 45.0 E), (Rle_dec E 45); f_equal; lra.
  - intros p k zt at_ E0 [y0 Hy0].
    by apply (parameter_differentiable _ _ _ _ _ y0).
Qed.

(** [bojowald]'s [Vsi] at the threshold: defined, and not differentiable. *)
Lemma bojowald_surface_depth_kink :
  is_Some (parameter BOJOWALD "Vsi" 6 12 45)
  ∧ ¬ differentiable_at (parameter BOJOWALD "Vsi" 6 12) 45.
Proof.
  split.
  - apply parameter_defined; [by repeat constructor | | lia | discriminate].
    unfold parameter_keys. set_solver.
  - apply bojowald_kink. by right.
Qed.

Lemma parameters_continuous_in_energy_witness :
  parameter BOJOWALD "Vi" 6 12 30 = Some 0
  ∧ continuous_at (parameter BOJOWALD "Vi" 6 12) 45
  ∧ differentiable_at (parameter BOJOWALD "Vi" 6 12) 30.
Proof.
  destruct parameters_continuous_in_energy as (Hdef & Hcont & Hvi & Hdiff).
  assert (parameter BOJOWALD "Vi" 6 12 30 = Some 0) as H30.
  { rewrite Hvi by lia. destruct (Rle_dec 30 45); [done | lra]. }
  split_and!; [done | apply Hcont |].
  apply Hdiff; [by rewrite H30 |].
  intros [(_ & _ & ?)|(? & _)]; [lra | discriminate].
Defined.

End EnergyDependence.

(** * Binary64 arithmetic

    The arithmetic CPython computes the formulas in: numbers are IEEE 754
    binary64 floats, [+], [-], [*], [/] and [math.sqrt] are the correctly
    rounded operations, a literal is the float nearest to the decimal
    written, an [int] operand is converted to the nearest float, and [**]
    and [math.exp] go through the cases of CPython's [float_pow] and
    [math_1] down to the C library's [pow] and [exp].  The two library
    functions are taken as the correctly rounded ones, computed here by
    enclosing the real value between two rationals until both round to
    the same float. *)

Module Binary64.
Import PrimFloat SpecFloat FloatOps.

Local Open Scope Z_scope.

(** Division rounded up, for a positive divisor. *)
Definition cdiv (a b : Z) : Z := - ((- a) / b).

(** *** Rounding a rational to the nearest float, ties to even

    The quotient [n / d] is taken to at least 66 bits, with one more bit
    set when the division leaves a remainder; that integer is rounded to
    53 bits (fewer for a subnormal, infinity on overflow). *)

Definition round_pos (neg : bool) (n d : positive) : float :=
  let s := 66 + Z.log2 (Zpos d) - Z.log2 (Zpos n) in
  let num := if 0 <=? s then Zpos n * 2 ^ s else Zpos n in
  let den := if 0 <=? s then Zpos d else Zpos d * 2 ^ (- s) in
  let sticky := if num mod den =? 0 then 0 else 1 in
  let m := 2 * (num / den) + sticky in
  SF2Prim (binary_normalize prec emax (if neg then - m else m) (- s - 1) false).

Definition round_Q (q : Q) : float :=
  match Qnum q with
  | Z0 => 0%float
  | Zpos n => round_pos false n (Qden q)
  | Zneg n => round_pos true n (Qden q)
  end.

(** The rational a finite float is, in lowest terms. *)
Definition to_Q (x : float) : Q :=
  match Prim2SF x with
  | S754_finite s m e =>
      let z := if s then Zneg m else Zpos m in
      Qred (if 0 <=? e then Qmake (z * 2 ^ e) 1
            else Qmake z (Z.to_pos (2 ^ (- e))))
  | _ => 0%Q
  end.

(** *** Enclosures of [exp] and [ln] in fixed point

    A real [v] is enclosed by integers [lo <= v * 2^p <= hi]. *)

Section Enclosures.
Variable p : Z.

Definition one : Z := 2 ^ p.

(** [t_k + ... + t_(k+n-1)] and [t_(k+n)], for [t_(k+1) = t_k * r / (k+1)],
    roundings by [rnd]. *)
Fixpoint exp_series (rnd : Z -> Z -> Z) (r t k : Z) (n : nat) : Z * Z :=
  match n with
  | O => (0, t)
  | S n =>
      let '(s, last) :=
        exp_series rnd r (rnd (t * r) (one * (k + 1))) (k + 1) n in
      (t + s, last)
  end.

Definition terms : nat := Z.to_nat (p / 3 + 4).

Fixpoint squarings (rnd : Z -> Z -> Z) (v : Z) (j : nat) : Z :=
  match j with
  | O => v
  | S j => squarings rnd (rnd (v * v) one) j
  end.

(** [exp (x / 2^p)] for [0 <= x]: the argument is halved [j] times to at
    most a half, the series is summed, and the sum is squared [j] times. *)
Definition exp_pos (x : Z) : Z * Z :=
  let j := Z.max 0 (Z.log2 x - p + 2) in
  let rl := x / 2 ^ j in
  let rh := cdiv x (2 ^ j) in
  let lo := fst (exp_series Z.div rl one 0 terms) in
  let '(s, last) := exp_series cdiv rh one 0 terms in
  (squarings Z.div lo (Z.to_nat j),
   squarings cdiv (s + 2 * last + 1) (Z.to_nat j)).

(** [exp] of a real enclosed by [tl] and [th], as two rationals. *)
Definition exp_enclosure (tl th : Z) : Q * Q :=
  (if 0 <=? tl then Qmake (fst (exp_pos tl)) (Z.to_pos one)
   else Qmake one (Z.to_pos (snd (exp_pos (- tl)))),
   if 0 <=? th then Qmake (snd (exp_pos th)) (Z.to_pos one)
   else Qmake one (Z.to_pos (fst (exp_pos (- th))))).

(** [s + s^3/3 + s^5/5 + ...]: the terms from [t = s^(2k+1)] on. *)
Fixpoint atanh_series (rnd : Z -> Z -> Z) (s2 t k : Z) (n : nat) : Z * Z :=
  match n with
  | O => (0, t)
  | S n =>
      let '(s, last) :=
        atanh_series rnd s2 (rnd (t * s2) one) (k + 1) n in
      (rnd t (2 * k + 1) + s, last)
  end.

(** [atanh (n / d)] for [0 <= n / d <= 1/3]. *)
Definition atanh_enclosure (n d : Z) : Z * Z :=
  let sl := n * one / d in
  let sh := cdiv (n * one) d in
  let lo := fst (atanh_series Z.div (sl * sl / one) sl 0 terms) in
  let '(s, last) := atanh_series cdiv (cdiv (sh * sh) one) sh 0 terms in
  (lo, s + 2 * last + 1).

(** [ln (n / d)], as [k * ln 2 + 2 * atanh ((u - 1) / (u + 1))] with
    [u = n / (d * 2^k)] between a half and two. *)
Definition ln_enclosure (n d : positive) : Z * Z :=
  let k := Z.log2 (Zpos n) - Z.log2 (Zpos d) in
  let un := if 0 <=? k then Zpos n else Zpos n * 2 ^ (- k) in
  let ud := if 0 <=? k then Zpos d * 2 ^ k else Zpos d in
  let '(al, ah) := atanh_enclosure (Z.abs (un - ud)) (un + ud) in
  let '(ul, uh) :=
    if ud <=? un then (2 * al, 2 * ah) else (- (2 * ah), - (2 * al)) in
  let '(l2l, l2h) := atanh_enclosure 1 3 in
  if 0 <=? k then (ul + k * (2 * l2l), uh + k * (2 * l2h))
  else (ul + k * (2 * l2h), uh + k * (2 * l2l)).

(** [exp t] rounded, when the roundings of the two ends agree; the result
    overflows above [t = 1100] and is zero below [-1100]. *)
Definition rounded_exp (tl th : Z) : option float :=
  if 1100 * one <? tl then Some infinity
  else if th <? -1100 * one then Some 0%float
  else if (1100 * one <? th) || (tl <? -1100 * one) then None
  else
    let '(lo, hi) := exp_enclosure tl th in
    let f := round_Q lo in
    if PrimFloat.Leibniz.eqb f (round_Q hi) then Some f else None.

Definition exp_at (x : Q) : option float :=
  rounded_exp (Qnum x * one / Zpos (Qden x))
              (cdiv (Qnum x * one) (Zpos (Qden x))).

(** [x ** y = exp (y * ln x)] for a positive rational [x]. *)
Definition pow_at (x y : Q) : option float :=
  match Qnum x with
  | Zpos n =>
      let '(ll, lh) := ln_enclosure n (Qden x) in
      let yn := Qnum y in
      let yd := Zpos (Qden y) in
      if 0 <=? yn then rounded_exp (yn * ll / yd) (cdiv (yn * lh) yd)
      else rounded_exp (yn * lh / yd) (cdiv (yn * ll) yd)
  | _ => None
  end.

End Enclosures.

(** The precision is doubled until the rounding is decided; [nan] stands
    for a rounding that six doublings leave undecided. *)
Fixpoint decide_rounding (f : Z -> option float) (p : Z) (fuel : nat)
  : float :=
  match f p with
  | Some r => r
  | None =>
      match fuel with
      | O => nan
      | S fuel => decide_rounding f (2 * p) fuel
      end
  end.

Definition libm_exp (x : float) : float :=
  decide_rounding (fun p => exp_at p (to_Q x)) 128 6.

Definition libm_pow (x y : float) : float :=
  decide_rounding (fun p => pow_at p (to_Q x) (to_Q y)) 128 6.


(** *** Python's operations on [float] *)

Definition is_integer (y : float) : bool := Pos.eqb (Qden (to_Q y)) 1.

Definition is_odd_integer (y : float) : bool :=
  is_integer y && Z.odd (Qnum (to_Q y)).

(** [int] to [float]: rounded to nearest, [OverflowError] beyond the
    largest float. *)
Definition py_float (z : Z) : result float :=
  let x := round_Q (Qmake z 1) in
  if is_infinity x then Raise OverflowError else Ok x.

(** [x / y]. *)
Definition py_div (x y : float) : result float :=
  if is_zero y then Raise ZeroDivisionError else Ok (x / y)%float.

(** [math.exp(x)]: the C library's [exp], [OverflowError] when it
    overflows. *)
Definition py_exp (x : float) : result float :=
  if is_nan x then Ok x
  else if is_infinity x then Ok (if get_sign x then 0 else x)%float
  else
    let r := libm_exp x in
    if is_infinity r then Raise OverflowError else Ok r.

(** [math.sqrt(x)]. *)
Definition py_sqrt (x : float) : result float :=
  if (x <? 0)%float then Raise ValueError else Ok (PrimFloat.sqrt x).

(** [x ** y], as [float_pow] of CPython goes through its cases. *)
Definition py_pow (x y : float) : result float :=
  if is_zero y then Ok 1%float
  else if is_nan x then Ok x
  else if is_nan y then Ok (if (x =? 1)%float then 1%float else y)
  else if is_infinity y then
    let ax := abs x in
    if (ax =? 1)%float then Ok 1%float
    else if Bool.eqb (0 <? y)%float (1 <? ax)%float then Ok (abs y)
    else Ok 0%float
  else if is_infinity x then
    if (0 <? y)%float then Ok (if is_odd_integer y then x else abs x)
    else Ok (if is_odd_integer y && get_sign x then (-0)%float
             else 0%float)
  else if is_zero x then
    if (y <? 0)%float then Raise ZeroDivisionError
    else Ok (if is_odd_integer y then x else 0%float)
  else if (x <? 0)%float && negb (is_integer y) then Raise NotReal
  else
    let negate := (x <? 0)%float && is_odd_integer y in
    let ax := abs x in
    if (ax =? 1)%float then Ok (if negate then (-1)%float else 1%float)
    else
      let r := libm_pow ax y in
      if is_infinity r then Raise OverflowError
      else Ok (if negate then (- r)%float else r).

Definition py_gt (x y : float) : bool := (y <? x)%float.

#[export] Program Instance arith : Arith := {|
  num := float;
  lit := round_Q;
  of_int := py_float;
  f_add := PrimFloat.add;
  f_sub := PrimFloat.sub;
  f_mul := PrimFloat.mul;
  f_div := py_div;
  f_pow := py_pow;
  f_exp := py_exp;
  f_sqrt := py_sqrt;
  f_gt := py_gt
|}.
Next Obligation.
  intros z e. unfold py_float. destruct (is_infinity _); by intros [= <-].
Qed.
Next Obligation.
  intros x y e. unfold py_div. destruct (is_zero _); by intros [= <-].
Qed.
Next Obligation.
  intros x y e. unfold py_pow.
  repeat match goal with
         | |- context [if ?c then _ else _] => destruct c
         end; by intros [= <-].
Qed.
Next Obligation.
  intros x e. unfold py_exp.
  repeat match goal with
         | |- context [if ?c then _ else _] => destruct c
         end; by intros [= <-].
Qed.
Next Obligation.
  intros x e. unfold py_sqrt. destruct (_ <? _)%float; by intros [= <-].
Qed.

(** The value under a key of the mapping [create_parameters] returns. *)
Definition parameter (potential key : string) (zt at_ : Z) (E : float)
  : option float :=
  match create_parameters E zt at_ potential with
  | Ok ps => ps !! key
  | Raise _ => None
  end.

End Binary64.

(** * The formulas under rounding *)

Section Computed.
Context {A : Arith}.
Local Open Scope Q_scope.
Local Open Scope py_scope.

(** [12.0 + 0.031 * E], the total imaginary strength of the Daehnick
    formula. *)
Definition total_strength (E : num) : num :=
  f_add (lit 12.0) (f_mul (lit 0.031) E).

(** [math.exp(beta)] with [beta = -1.0 * (E * 0.01) ** 2.0]. *)
Definition split_factor (E : num) : result num :=
  math_exp (-1.0 * (E * 0.01) ** 2.0) ∅.

(** [math.exp(-1.0 * ((N - nt) * 0.5) ** 2.0)], one of [mu1] to [mu6]. *)
Definition gaussian_term (N : Q) (nt : Z) : result num :=
  math_exp (-1.0 * ((N - nt) * 0.5) ** 2.0) ∅.

(** The two terms of the Li-Liang-Cai formula in [(nt - zt) / at], as
    the source computes them: the coefficient times [nt - zt], divided by
    [at]. *)
Definition asymmetry_term (c : Q) (zt at_ : Z) : result num :=
  (c * (at_ - zt - zt)%Z / at_) ∅.

End Computed.

Ltac computed_expr :=
  unfold split_factor, gaussian_term, asymmetry_term, math_exp, lift1,
    e_add, e_sub, e_mul, e_div, e_pow, lift2, e_lit, e_num, e_int;
  repeat match goal with
         | H : ?l = Ok _ |- context [?l] => rewrite H
         end;
  try reflexivity.

Section Rounding.
Implicit Types (A : Arith).

Lemma daehnick_split_computed A (E : num) (zt at_ : Z) (d d' : Dict) :
  daehnick_potential E zt at_ d = (d', Ok tt) →
  ∃ x g1 g2 g3 g4 g5 g6 a3 : num,
    split_factor E = Ok x
    ∧ d' !! "Vi" = Some (f_mul (total_strength E) (f_sub (lit 1.0) x))
    ∧ d' !! "Vsi" = Some (f_mul (total_strength E) x)
    ∧ gaussian_term 8.0 (at_ - zt) = Ok g1
    ∧ gaussian_term 20.0 (at_ - zt) = Ok g2
    ∧ gaussian_term 28.0 (at_ - zt) = Ok g3
    ∧ gaussian_term 50.0 (at_ - zt) = Ok g4
    ∧ gaussian_term 82.0 (at_ - zt) = Ok g5
    ∧ gaussian_term 126.0 (at_ - zt) = Ok g6
    ∧ e_pow at_ 0.333%Q ∅ = Ok a3
    ∧ ∀ k, k = "ai" ∨ k = "asi" →
        d' !! k
        = Some (f_sub (f_add (lit 0.52) (f_mul (lit 0.07) a3))
                  (f_mul (lit 0.04)
                     (f_add (f_add (f_add (f_add (f_add g1 g2) g3) g4) g5)
                        g6))).
Proof.
  intros Hrun. generic_run Hrun.
  do 8 eexists. split_and!; [computed_expr..|].
  - unfold total_strength. lookup_insert. reflexivity.
  - unfold total_strength. lookup_insert. reflexivity.
  - intros k [-> | ->]; lookup_insert; reflexivity.
Qed.

Lemma li_liang_cai_symmetric_computed A (E : num) (at_ : Z) (d d' : Dict) :
  li_liang_cai_triton_potential E at_ at_ d = (d', Ok tt) →
  ∃ sq tV tVsi c : num,
    e_pow E 2%Z ∅ = Ok sq
    ∧ asymmetry_term 4.3751 at_ at_ = Ok tV
    ∧ asymmetry_term 47.19 at_ at_ = Ok tVsi
    ∧ (1.0474%Q * at_ / at_ ** (1.0%Q / 3.0%Q))%py ∅ = Ok c
    ∧ d' !! "V"
      = Some (f_add (f_add (f_add (f_sub (lit 137.6) (f_mul (lit 0.1456) E))
                              (f_mul (lit 0.0436) sq)) tV) c)
    ∧ d' !! "Vsi"
      = Some (f_sub (f_sub (lit 37.06) (f_mul (lit 0.6451) E)) tVsi).
Proof.
  intros Hrun. generic_run Hrun.
  do 4 eexists. split_and!; [computed_expr.. | |].
  - lookup_insert. reflexivity.
  - lookup_insert. reflexivity.
Qed.

End Rounding.

Section RoundingClaims.
Import Exact.
Local Open Scope R_scope.

(** C6, as the code has it.  Whenever the Daehnick formula returns, in
    any arithmetic, [Vi] and [Vsi] are the total strength
    [12.0 + 0.031 * E] times [1.0 - x] and times [x], where [x] is
    [math.exp(beta)], and [ai] and [asi] carry the sum of the six
    Gaussian terms, added from [mu1] to [mu6].  In exact arithmetic [x]
    is [exp(-(E/100)^2)], the six terms are the Gaussians of the claim,
    and [Vi + Vsi] is the total strength; the formula returns there on
    every positive mass number and non-negative energy. *)
Theorem daehnick_imaginary_split :
  (∀ (A : Arith) (E : num) (zt at_ : Z) (d d' : Dict),
     daehnick_potential E zt at_ d = (d', Ok tt) →
     ∃ x g1 g2 g3 g4 g5 g6 a3 : num,
       split_factor E = Ok x
       ∧ d' !! "Vi" = Some (f_mul (total_strength E) (f_sub (lit 1.0) x))
       ∧ d' !! "Vsi" = Some (f_mul (total_strength E) x)
       ∧ gaussian_term 8.0 (at_ - zt) = Ok g1
       ∧ gaussian_term 20.0 (at_ - zt) = Ok g2
       ∧ gaussian_term 28.0 (at_ - zt) = Ok g3
       ∧ gaussian_term 50.0 (at_ - zt) = Ok g4
       ∧ gaussian_term 82.0 (at_ - zt) = Ok g5
       ∧ gaussian_term 126.0 (at_ - zt) = Ok g6
       ∧ e_pow at_ 0.333%Q ∅ = Ok a3
       ∧ ∀ k, k = "ai" ∨ k = "asi" →
           d' !! k
           = Some (f_sub (f_add (lit 0.52) (f_mul (lit 0.07) a3))
                     (f_mul (lit 0.04)
                        (f_add (f_add (f_add (f_add (f_add g1 g2) g3) g4)
                                  g5) g6))))
  ∧ (∀ (E : R) (zt at_ : Z) (d d' : gmap string R),
       daehnick_potential E zt at_ d = (d', Ok tt) →
       let nt := IZR (at_ - zt) in
       let mu := gaussian_sum [8; 20; 28; 50; 82; 126] nt in
       ∃ Vi Vsi,
         d' !! "Vi" = Some Vi ∧ d' !! "Vsi" = Some Vsi
         ∧ Vsi = (12 + 0.031 * E) * exp (- (E / 100) ^ 2)
         ∧ Vi = (12 + 0.031 * E) * (1 - exp (- (E / 100) ^ 2))
         ∧ Vi + Vsi = 12 + 0.031 * E
         ∧ d' !! "ai"
           = Some (0.52 + 0.07 * Rpower (IZR at_) 0.333 - 0.04 * mu)
         ∧ d' !! "asi"
           = Some (0.52 + 0.07 * Rpower (IZR at_) 0.333 - 0.04 * mu))
  ∧ (∀ (E : R) (zt at_ : Z) (d : gmap string R),
       (0 < at_)%Z → 0 <= E → (daehnick_potential E zt at_ d).2 = Ok tt).
Proof.
  split_and!.
  - apply daehnick_split_computed.
  - exact (proj1 daehnick_split_exact).
  - exact (proj2 daehnick_split_exact).
Qed.

(** C7, as the code has it.  With [zt = at], whenever the Li-Liang-Cai
    formula returns, in any arithmetic, the asymmetry enters [V] and
    [Vsi] as [4.3751 * (nt - zt) / at] and [47.19 * (nt - zt) / at] with
    [nt - zt = -at]: the coefficient is multiplied by [-at] and the
    product divided by [at].  In exact arithmetic these are [4.3751 * (-1)]
    and [47.19 * (-1)], [V] and [Vsi] are as the claim gives them, and
    they differ from those of any call with the same energy and mass
    number and a positive neutron number; the formula returns there on
    every positive mass number. *)
Theorem li_liang_cai_triton_symmetric_target :
  (∀ (A : Arith) (E : num) (at_ : Z) (d d' : Dict),
     li_liang_cai_triton_potential E at_ at_ d = (d', Ok tt) →
     ∃ sq tV tVsi c : num,
       e_pow E 2%Z ∅ = Ok sq
       ∧ asymmetry_term 4.3751 at_ at_ = Ok tV
       ∧ asymmetry_term 47.19 at_ at_ = Ok tVsi
       ∧ (1.0474%Q * at_ / at_ ** (1.0%Q / 3.0%Q))%py ∅ = Ok c
       ∧ d' !! "V"
         = Some (f_add (f_add (f_add (f_sub (lit 137.6)
                                        (f_mul (lit 0.1456) E))
                                 (f_mul (lit 0.0436) sq)) tV) c)
       ∧ d' !! "Vsi"
         = Some (f_sub (f_sub (lit 37.06) (f_mul (lit 0.6451) E)) tVsi))
  ∧ (∀ (E : R) (at_ : Z) (d d' : gmap string R),
       li_liang_cai_triton_potential E at_ at_ d = (d', Ok tt) →
       IZR ((at_ - at_) - at_) / IZR at_ = -1
       ∧ d' !! "V" = Some (137.6 - 0.1456 * E + 0.0436 * E ^ 2
                           + 4.3751 * (-1)
                           + 1.0474 * IZR at_ / Rpower (IZR at_) (1 / 3))
       ∧ d' !! "Vsi" = Some (37.06 - 0.6451 * E - 47.19 * (-1)))
  ∧ (∀ (E : R) (zt at_ : Z) (d1 d1' d2 d2' : gmap string R),
       li_liang_cai_triton_potential E at_ at_ d1 = (d1', Ok tt) →
       li_liang_cai_triton_potential E zt at_ d2 = (d2', Ok tt) →
       (0 < at_ - zt)%Z →
       d1' !! "V" ≠ d2' !! "V" ∧ d1' !! "Vsi" ≠ d2' !! "Vsi")
  ∧ (∀ (E : R) (zt at_ : Z) (d : gmap string R),
       (0 < at_)%Z → (li_liang_cai_triton_potential E zt at_ d).2 = Ok tt).
Proof.
  split; [|exact li_liang_cai_symmetric_exact].
  apply li_liang_cai_symmetric_computed.
Qed.

End RoundingClaims.

Section Rounded.
Import PrimFloat.
Local Open Scope float_scope.
Local Set Warnings "-inexact-float".

(** C6 as stated fails in binary64: at [E = 40.0] (here with
    [zt = 20], [at = 40]) the two products are rounded and their sum is
    one unit in the last place below the total strength. *)
Lemma daehnick_split_rounded :
  Binary64.parameter "daehnick" "Vi" 20 40 40 = Some 1.9576162340873617
  ∧ Binary64.parameter "daehnick" "Vsi" 20 40 40 = Some 11.282383765912638
  ∧ 1.9576162340873617 + 11.282383765912638 = 13.239999999999998
  ∧ total_strength (A := Binary64.arith) 40 = 13.24
  ∧ (13.239999999999998 <? 13.24) = true.
Proof. vm_compute. by repeat split. Qed.

(** C7 as stated fails in binary64: at [(5.0, 11, 11)] the quotient
    [47.19 * (-11) / 11] is not [47.19 * (-1)], and [Vsi] is one unit in
    the last place below the value of the claim's expression; at
    [E = 1e10] the term [0.0436 * E**2] absorbs the others, and [V] is
    the same for [zt = at = 11] and for [zt = 0]. *)
Lemma li_liang_cai_symmetric_rounded :
  Binary64.parameter "li-liang-cai-triton" "Vsi" 11 11 5
  = Some 81.02449999999999
  ∧ 37.06 - 0.6451 * 5 - 47.19 * (-1) = 81.0245
  ∧ (81.02449999999999 <? 81.0245) = true
  ∧ Binary64.parameter "li-liang-cai-triton" "V" 11 11 1e10
    = Some 4.359999998544e+18
  ∧ Binary64.parameter "li-liang-cai-triton" "V" 0 11 1e10
    = Some 4.359999998544e+18.
Proof. vm_compute. by repeat split. Qed.

End Rounded.

Section RoundingWitnesses.
Import PrimFloat.
Local Open Scope float_scope.
Local Set Warnings "-inexact-float".

(** The Daehnick formula in binary64 on [(40.0, 20, 40)]. *)
Lemma daehnick_imaginary_split_witness :
  ∃ x : float,
    split_factor (A := Binary64.arith) 40 = Ok x
    ∧ (daehnick_potential (A := Binary64.arith) 40 20 40 ∅).1 !! "Vsi"
      = Some (total_strength (A := Binary64.arith) 40 * x).
Proof.
  destruct (proj1 daehnick_imaginary_split Binary64.arith 40 20%Z 40%Z ∅
              (daehnick_potential (A := Binary64.arith) 40 20 40 ∅).1)
    as (x & g1 & g2 & g3 & g4 & g5 & g6 & a3 & Hx & _ & HVsi & _).
  { vm_compute. reflexivity. }
  exists x. by split.
Defined.

(** The Li-Liang-Cai formula in binary64 on [(5.0, 11, 11)]. *)
Lemma li_liang_cai_triton_symmetric_target_witness :
  ∃ t : float,
    asymmetry_term (A := Binary64.arith) 47.19 11 11 = Ok t
    ∧ (li_liang_cai_triton_potential (A := Binary64.arith) 5 11 11 ∅).1
        !! "Vsi"
      = Some (37.06 - 0.6451 * 5 - t).
Proof.
  destruct (proj1 li_liang_cai_triton_symmetric_target Binary64.arith
              5 11%Z ∅
              (li_liang_cai_triton_potential (A := Binary64.arith)
                 5 11 11 ∅).1)
    as (sq & tV & tVsi & c & _ & _ & Ht & _ & _ & HVsi).
  { vm_compute. reflexivity. }
  exists tVsi. by split.
Defined.

End RoundingWitnesses.

(** * Further properties of the module *)

(** ** Keys a formula writes *)

Section Frame.
Context {A : Arith}.
Implicit Types (W : gset string) (d : Dict).

(** A statement writes within [W]: whatever the outcome, it removes no
    key and leaves every key outside [W] as it was. *)
Definition writes_within {B} W (m : M B) : Prop :=
  ∀ d, dom d ⊆ dom (m d).1 ∧ ∀ k, k ∉ W → (m d).1 !! k = d !! k.

Lemma writes_ret {B} W (b : B) : writes_within W (ret b).
Proof. by intros d. Qed.

Lemma writes_eval W (e : expr) : writes_within W (eval e).
Proof. by intros d. Qed.

Lemma writes_setitem W (key : string) (e : expr) :
  key ∈ W → writes_within W (setitem key e).
Proof.
  intros Hkey d. unfold setitem. destruct (e d) as [v|x]; [|done].
  cbn [fst]. split.
  - rewrite dom_insert. set_solver.
  - intros k Hk. apply lookup_insert_ne. by intros ->.
Qed.

Lemma writes_bind {B C} W (m : M B) (f : B -> M C) :
  writes_within W m → (∀ b, writes_within W (f b)) →
  writes_within W (bind m f).
Proof.
  intros Hm Hf d. unfold bind. destruct (Hm d) as [Hdom Hout].
  destruct (m d) as [d1 [b|x]]; [|done].
  destruct (Hf b d1) as [Hdom' Hout']. cbn [fst] in *. split.
  - by etrans.
  - intros k Hk. by rewrite Hout', Hout.
Qed.

End Frame.

Ltac writes_tac :=
  repeat first
    [ apply writes_bind; [|intros ?]
    | apply writes_eval
    | apply writes_setitem; unfold parameter_keys; set_solver ].

Section FormulaFrame.
Context {A : Arith}.

(** A registered formula called on any dictionary, in any arithmetic:
    whether it returns or raises, it removes no key, and a key other than
    the sixteen holds what it held. *)
Theorem formulas_write_parameter_keys_only
    (p : string) (f : num -> Z -> Z -> M unit) (E : num) (zt at_ : Z)
    (d : Dict) :
  dict_get POTENTIALS p = Some f →
  dom d ⊆ dom (f E zt at_ d).1
  ∧ ∀ k, k ∉ parameter_keys → (f E zt at_ d).1 !! k = d !! k.
Proof.
  intros Hf. revert d. change (writes_within parameter_keys (f E zt at_)).
  unfold POTENTIALS, dict_get in Hf.
  repeat case_decide; simplify_eq;
    [ unfold an_cai_potential | unfold daehnick_potential
    | unfold bojowald_potential | unfold koning_delaroche_proton_potential
    | unfold li_liang_cai_triton_potential ];
    cbv zeta; writes_tac.
Qed.

End FormulaFrame.

(** ** Outputs that share a value *)

Section SharedValues.
Context {A : Arith}.
Implicit Types (d : Dict).

Definition same_value d (k1 k2 : string) : Prop :=
  ∃ v, d !! k1 = Some v ∧ d !! k2 = Some v.

Definition holds d (k : string) (q : Q) : Prop := d !! k = Some (lit q).

(** Outputs computed from the same expression hold the same value, in any
    arithmetic, whenever the formula returns: [ri0] and [rsi0], [ai] and
    [asi] of the Daehnick and the Bojowald formulas, [rso0] and [aso] of
    the Bojowald formula, [a] and [ai], [aso] and [asoi] of the
    Koning-Delaroche formula. *)
Theorem outputs_equal_by_construction (E : num) (zt at_ : Z) d d' :
  (daehnick_potential E zt at_ d = (d', Ok tt) →
   same_value d' "ri0" "rsi0" ∧ same_value d' "ai" "asi")
  ∧ (bojowald_potential E zt at_ d = (d', Ok tt) →
     same_value d' "ri0" "rsi0" ∧ same_value d' "ai" "asi"
     ∧ same_value d' "rso0" "aso")
  ∧ (koning_delaroche_proton_potential E zt at_ d = (d', Ok tt) →
     same_value d' "a" "ai" ∧ same_value d' "aso" "asoi").
Proof.
  unfold same_value. split_and!; intros Hrun; generic_run Hrun.
  all: split_and!; eexists.
  all: (split; [lookup_insert; reflexivity|]); lookup_insert; congruence.
Qed.

(** The terms a model does not have are stored as the literal [0.0], in
    any arithmetic, whenever the formula returns: the three
    spin-orbit-imaginary outputs of every formula but the
    Koning-Delaroche one, whose [asoi] is the literal [0.59]. *)
Theorem absent_terms_are_zero (E : num) (zt at_ : Z) d d' p f :
  dict_get POTENTIALS p = Some f →
  f E zt at_ d = (d', Ok tt) →
  if decide (p = KONING_DELAROCHE_PROTON) then holds d' "asoi" 0.59
  else holds d' "Vsoi" 0.0 ∧ holds d' "rsoi0" 0.0 ∧ holds d' "asoi" 0.0.
Proof.
  intros Hf Hrun. unfold POTENTIALS, dict_get in Hf.
  repeat case_decide; try discriminate Hf; injection Hf as <-; subst p.
  all: generic_run Hrun.
  all: unfold holds; split_and?; lookup_insert; reflexivity.
Qed.

End SharedValues.

(** ** Which inputs an output depends on *)

Section Items.
Import Exact.
Local Open Scope R_scope.

(** The value a list of items leaves under a key, computed. *)
Fixpoint item (k : string) (items : list (string * R)) (dflt : option R)
  : option R :=
  match items with
  | [] => dflt
  | (k', v) :: items =>
      item k items (if String.eqb k k' then Some v else dflt)
  end.

Lemma store_lookup items (d : gmap string R) k :
  store items d !! k = item k items (d !! k).
Proof.
  unfold store. revert d. induction items as [|[k' v] items IH]; intros d.
  - done.
  - cbn [foldl item fst snd]. rewrite IH. f_equal.
    destruct (String.eqb_spec k k') as [->|Hne].
    + by rewrite lookup_insert_eq.
    + by rewrite lookup_insert_ne.
Qed.

Lemma parameter_item p k zt at_ E items :
  dict_get closed_forms p = Some items →
  (0 < at_)%Z → (p = DAEHNICK → 0 <= E) →
  parameter p k zt at_ E
  = item k (items E zt at_) (initial_params (A := Exact.arith) !! k).
Proof.
  intros. rewrite (parameter_closed_form _ _ _ _ _ items) by done.
  apply store_lookup.
Qed.

(** The outputs whose right-hand side mentions [E], directly or through
    [beta], [delta_e] or another output. *)
Definition energy_dependent : list (string * list string) :=
  [ (AN_CAI, ["V"; "Vi"; "Vsi"]);
    (DAEHNICK, ["V"; "Vi"; "Vsi"; "Vso"; "ri0"; "rsi0"; "a"]);
    (BOJOWALD, ["V"; "Vi"; "Vsi"]);
    (KONING_DELAROCHE_PROTON, ["V"; "Vi"; "Vsi"; "Vso"; "Vsoi"]);
    (LI_LIANG_CAI_TRITON, ["V"; "Vi"; "Vsi"]) ].

(** The outputs whose right-hand side mentions [zt], directly or through
    [nt], [mu], [v1], [d1] or [vc]. *)
Definition charge_dependent : list (string * list string) :=
  [ (AN_CAI, ["V"]);
    (DAEHNICK, ["V"; "ai"; "asi"]);
    (BOJOWALD, ["V"]);
    (KONING_DELAROCHE_PROTON, ["V"; "Vsi"]);
    (LI_LIANG_CAI_TRITON, ["V"; "Vsi"]) ].

End Items.

Ltac lookup_item :=
  rewrite !store_lookup; cbn [item String.eqb Ascii.eqb Bool.eqb].

Ltac keys_cases Hk :=
  unfold parameter_keys in Hk;
  repeat (apply elem_of_union in Hk as [Hk|Hk]);
  apply elem_of_singleton in Hk; subst.

(** A decidable proposition on concrete data, by computation. *)
Ltac computed := apply (bool_decide_unpack _); vm_compute; exact I.

Ltac listed Hn := exfalso; apply Hn; computed.

Section Dependence.
Import Exact.
Local Open Scope R_scope.

Lemma closed_form_independent p items ks (E E' : R) zt zt' at_ k :
  dict_get closed_forms p = Some items →
  (dict_get energy_dependent p = Some ks ∧ zt = zt'
   ∨ dict_get charge_dependent p = Some ks ∧ E = E') →
  k ∈ parameter_keys → k ∉ ks →
  store (items E zt at_) initial_params !! k
  = store (items E' zt' at_) initial_params !! k.
Proof.
  intros Hit Hks Hk Hn.
  closed_form Hit; subst p.
  all: destruct Hks as [[Hks <-]|[Hks <-]]; vm_compute in Hks;
    injection Hks as <-.
  all: keys_cases Hk.
  all: try listed Hn.
  all: items_unfold; lookup_item; reflexivity.
Qed.

(** An output that is not listed under its formula in [energy_dependent]
    has the same value at every energy at which the call returns, the
    target being fixed (exact arithmetic). *)
Theorem energy_independent_outputs p ks k zt at_ (E E' : R) y y' :
  dict_get energy_dependent p = Some ks → k ∉ ks →
  parameter p k zt at_ E = Some y →
  parameter p k zt at_ E' = Some y' →
  y = y'.
Proof.
  intros Hks Hn (items & Hit & Hat & HE & Hy & Hk)%parameter_inv
    (items' & Hit' & _ & _ & Hy' & _)%parameter_inv.
  rewrite Hit in Hit'. injection Hit' as <-.
  rewrite (closed_form_independent p items ks E E' zt zt at_ k) in Hy
    by auto.
  congruence.
Qed.

(** An output that is not listed under its formula in [charge_dependent]
    is the same for every proton number, the energy and the mass number
    being fixed; whether the call returns does not depend on the proton
    number either (exact arithmetic). *)
Theorem charge_independent_outputs p ks k (zt zt' at_ : Z) (E : R) :
  dict_get charge_dependent p = Some ks → k ∉ ks →
  parameter p k zt at_ E = parameter p k zt' at_ E.
Proof.
  intros Hks Hn.
  assert (∀ z z' y, parameter p k z at_ E = Some y →
                    parameter p k z' at_ E = Some y) as Hsome.
  { intros z z' y (items & Hit & Hat & HE & Hy & Hk)%parameter_inv.
    rewrite (parameter_closed_form _ _ _ _ _ items) by done.
    rewrite <- Hy. symmetry.
    apply (closed_form_independent p items ks); auto. }
  destruct (parameter p k zt at_ E) as [y|] eqn:H1.
  - symmetry. by apply (Hsome zt).
  - destruct (parameter p k zt' at_ E) as [y'|] eqn:H2; [|done].
    apply (Hsome zt' zt) in H2. congruence.
Qed.

End Dependence.

(** ** Calls that cannot return *)

Section Stops.
Context {A : Arith}.
Implicit Types (W : gset string) (d : Dict).

(** A divisor that [/] refuses. *)
Definition zero_divisor (z : num) : Prop :=
  ∀ x, f_div x z = Raise ZeroDivisionError.

(** An expression that raises whatever the dictionary holds. *)
Definition raises {B} (e : Dict -> result B) : Prop :=
  ∀ d, is_ok (e d) = false.

(** A statement that never returns and writes within [W] before it
    raises. *)
Definition stops_within {B} W (m : M B) : Prop :=
  ∀ d, is_ok (m d).2 = false ∧ ∀ k, k ∉ W → (m d).1 !! k = d !! k.

Lemma raises_lift2_l {B} (op : num -> num -> result B) (a b : expr) :
  raises a → raises (lift2 op a b).
Proof.
  intros Ha d. unfold lift2. specialize (Ha d). by destruct (a d).
Qed.

Lemma raises_lift2_r {B} (op : num -> num -> result B) (a b : expr) :
  raises b → raises (lift2 op a b).
Proof.
  intros Hb d. unfold lift2. specialize (Hb d).
  destruct (a d); [|done]. by destruct (b d).
Qed.

Lemma raises_div_num (a : expr) (z : num) :
  zero_divisor z → raises (e_div a (e_num z)).
Proof.
  intros Hz d. unfold e_div, lift2, e_num. destruct (a d); [|done].
  by rewrite Hz.
Qed.

Lemma raises_div_int (a : expr) (i : Z) (z : num) :
  of_int i = Ok z → zero_divisor z → raises (e_div a (e_int i)).
Proof.
  intros Hi Hz d. unfold e_div, lift2, e_int. destruct (a d); [|done].
  by rewrite Hi, Hz.
Qed.

Lemma raises_sqrt (x : num) :
  is_ok (f_sqrt x) = false → raises (math_sqrt (e_num x)).
Proof. by intros Hx d. Qed.

Lemma stops_eval W (e : expr) : raises e → stops_within W (eval e).
Proof. intros He d. split; [apply He | done]. Qed.

Lemma stops_setitem W (key : string) (e : expr) :
  raises e → stops_within W (setitem key e).
Proof.
  intros He d. unfold setitem. specialize (He d).
  by destruct (e d) as [v|x]; [discriminate He|].
Qed.

Lemma stops_bind_l {B C} W (m : M B) (f : B -> M C) :
  stops_within W m → stops_within W (bind m f).
Proof.
  intros Hm d. unfold bind. specialize (Hm d).
  by destruct (m d) as [d1 [b|x]]; [destruct Hm as [[=] _]|].
Qed.

Lemma stops_bind_r {B C} W (m : M B) (f : B -> M C) :
  writes_within W m → (∀ b, stops_within W (f b)) →
  stops_within W (bind m f).
Proof.
  intros Hm Hf d. unfold bind. destruct (Hm d) as [_ Hout].
  destruct (m d) as [d1 [b|x]]; [|done].
  destruct (Hf b d1) as [Hr Hout']. cbn [fst] in *. split; [done|].
  intros k Hk. by rewrite Hout', Hout.
Qed.

(** A local variable whose value is known. *)
Lemma stops_bind_eval {C} W (e : expr) (f : num -> M C) :
  (∀ b d, e d = Ok b → stops_within W (f b)) →
  stops_within W (bind (eval e) f).
Proof.
  intros Hf d. unfold bind, eval. destruct (e d) as [b|x] eqn:He; [|done].
  by apply (Hf b d).
Qed.

Lemma stops_unchanged {B} (m : M B) d :
  stops_within ∅ m → (m d).1 = d ∧ is_ok (m d).2 = false.
Proof.
  intros Hm. destruct (Hm d) as [Hr Hout]. split; [|done].
  apply map_eq. intros k. by apply Hout.
Qed.

End Stops.

Ltac raises_tac :=
  first
    [ apply raises_div_num; assumption
    | eapply raises_div_int; eassumption
    | apply raises_sqrt; assumption
    | apply raises_lift2_r; raises_tac
    | apply raises_lift2_l; raises_tac ].

Ltac stops_tac :=
  first
    [ apply stops_bind_l; first [apply stops_setitem | apply stops_eval];
      raises_tac
    | apply stops_bind_r;
      [ first [ apply writes_eval
              | apply writes_setitem; computed ]
      | intros ?; stops_tac ] ].

(** Python's zero: the float that the [int] 0 converts to is a divisor
    that [/] refuses, and so is its power [0 ** 0.333]. *)
Class PythonZero (A : Arith) : Prop :=
  python_zero :
    ∃ z a3 : num,
      of_int 0 = Ok z ∧ zero_divisor z
      ∧ f_pow z (lit 0.333%Q) = Ok a3 ∧ zero_divisor a3.

Section ZeroMass.
Context {A : Arith}.
Implicit Types (d : Dict).

Lemma zero_mass_stops p f (E : num) (zt : Z) :
  PythonZero A →
  dict_get POTENTIALS p = Some f → stops_within ∅ (f E zt 0%Z).
Proof.
  intros (z & a0 & Hz & Hzd & Hpow & Ha0) Hf.
  assert (∀ (b : num) d, (0%Z ** 0.333%Q)%py d = Ok b → zero_divisor b)
    as Hinv.
  { intros b d. unfold e_pow, lift2, e_int, e_lit. rewrite Hz, Hpow.
    by intros [= <-]. }
  unfold POTENTIALS, dict_get in Hf.
  repeat case_decide; simplify_eq;
    [ unfold an_cai_potential | unfold daehnick_potential
    | unfold bojowald_potential | unfold koning_delaroche_proton_potential
    | unfold li_liang_cai_triton_potential ];
    cbv zeta.
  - apply stops_bind_eval. intros a3 d Ha3%Hinv. stops_tac.
  - apply stops_bind_eval. intros a3 d Ha3%Hinv. stops_tac.
  - apply stops_bind_eval. intros a3 d Ha3%Hinv. stops_tac.
  - stops_tac.
  - stops_tac.
Qed.

End ZeroMass.

Section Failures.
Implicit Types (A : Arith).

(** With the mass number zero [create_parameters] never returns, in any
    arithmetic with Python's zero: whatever the registered keyword, the
    energy and the proton number, it raises a built-in exception (the
    [ZeroDivisionError] of the division by [a3] or by [at], unless an
    operation evaluated before it raises). *)
Theorem zero_mass_number_raises
    (A : Arith) (E : num) (zt : Z) (potential : string) :
  PythonZero A → potential ∈ keys POTENTIALS →
  ∃ e, create_parameters E zt 0 potential = Raise e ∧ builtin e.
Proof.
  intros HA [f Hf]%dict_get_keys.
  destruct (create_parameters E zt 0 potential) as [ps|e] eqn:Hps.
  - apply create_parameters_ok_inv in Hps as (f' & Hf' & Hrun).
    destruct (zero_mass_stops potential f' E zt HA Hf' initial_params)
      as [Hr _].
    by rewrite Hrun in Hr.
  - exists e. split; [done|]. destruct e as [msg| | | | |]; try done.
    apply create_parameters_exception in Hps as [Hp _].
    apply Hp, dict_get_keys. by eexists.
Qed.

(** What a formula that raises leaves in the dictionary it was given, in
    any arithmetic.  With the mass number zero (and Python's zero) every
    formula raises before its first store: the dictionary is as it was.
    The Daehnick formula on an energy that [math.sqrt] refuses does not
    return, and whatever operation raises, every key but [V], [Vi],
    [Vsi], [Vso], [Vsoi] and [r0], which are stored before
    [math.sqrt(E)] is evaluated, holds what it held. *)
Theorem failed_formula_leaves (A : Arith) (E : num) (zt : Z) (d : Dict) :
  (PythonZero A →
   ∀ p f, dict_get POTENTIALS p = Some f →
          (f E zt 0%Z d).1 = d ∧ is_ok (f E zt 0%Z d).2 = false)
  ∧ (is_ok (f_sqrt E) = false →
     ∀ at_,
       is_ok (daehnick_potential E zt at_ d).2 = false
       ∧ ∀ k, k ∉ ({["V"; "Vi"; "Vsi"; "Vso"; "Vsoi"; "r0"]} : gset string) →
              (daehnick_potential E zt at_ d).1 !! k = d !! k).
Proof.
  split.
  - intros HA p f Hf. by apply stops_unchanged, (zero_mass_stops p).
  - intros HE at_. revert d.
    change (stops_within {["V"; "Vi"; "Vsi"; "Vso"; "Vsoi"; "r0"]}
              (daehnick_potential E zt at_)).
    unfold daehnick_potential. cbv zeta. stops_tac.
Qed.

End Failures.

Section PythonZeros.
Import PrimFloat.

#[global] Instance exact_zero : PythonZero Exact.arith.
Proof.
  exists 0%R, 0%R. split_and!.
  - reflexivity.
  - intros x. apply Exact.py_div_zero.
  - apply Exact.py_pow_zero. simpl. lra.
  - intros x. apply Exact.py_div_zero.
Qed.

#[global] Instance binary64_zero : PythonZero Binary64.arith.
Proof.
  exists 0%float, 0%float. split_and!.
  - reflexivity.
  - intros x. reflexivity.
  - vm_compute. reflexivity.
  - intros x. reflexivity.
Qed.

End PythonZeros.

Section FailureWitnesses.
Import PrimFloat.
Local Open Scope float_scope.
Local Set Warnings "-inexact-float".

(** [create_parameters(1e200, 20, 0, "an-cai")] overflows at [E ** 2.0]
    before it divides, [create_parameters(30.0, 6, 0, "bojowald")]
    divides by zero. *)
Lemma zero_mass_number_raises_witness :
  (∃ e, create_parameters (A := Binary64.arith) 1e200 20 0 "an-cai"
        = Raise e ∧ builtin e)
  ∧ create_parameters (A := Binary64.arith) 1e200 20 0 "an-cai"
    = Raise OverflowError
  ∧ create_parameters (A := Binary64.arith) 30 6 0 "bojowald"
    = Raise ZeroDivisionError.
Proof.
  split_and!.
  - apply (zero_mass_number_raises Binary64.arith 1e200 20 "an-cai").
    + exact binary64_zero.
    + rewrite keys_POTENTIALS. by left.
  - vm_compute. reflexivity.
  - vm_compute. reflexivity.
Defined.

(** The Daehnick formula in binary64 on [E = -4.0], from the empty
    mapping: it does not return and [ri0] is not stored. *)
Lemma failed_formula_leaves_witness :
  is_ok (daehnick_potential (A := Binary64.arith) (-4) 6 12 ∅).2 = false
  ∧ (daehnick_potential (A := Binary64.arith) (-4) 6 12 ∅).1 !! "ri0" = None.
Proof.
  destruct (proj2 (failed_formula_leaves Binary64.arith (-4) 6 ∅) eq_refl 12%Z)
    as [Hr Hk].
  split; [exact Hr|]. rewrite (Hk "ri0"); [apply lookup_empty | computed].
Defined.

End FailureWitnesses.

(** ** Ranges of the imaginary depths *)

Section Ranges.
Import Exact.
Local Open Scope R_scope.

Lemma exp_nonpos x : x <= 0 → 0 < exp x <= 1 ∧ (exp x = 1 ↔ x = 0).
Proof.
  intros [Hx| ->].
  - pose proof (exp_increasing x 0 Hx) as Hlt. rewrite exp_0 in Hlt.
    pose proof (exp_pos x). split; [lra|]. split; lra.
  - rewrite exp_0. split; [lra|]. by split.
Qed.

(** The factor [x^2 / (x^2 + s^2)] of a Lorentzian. *)
Lemma lorentzian x s :
  s <> 0 →
  ∃ t, x ^ 2 / (x ^ 2 + s ^ 2) = t ∧ 0 <= t < 1 ∧ (t = 0 ↔ x = 0).
Proof.
  intros Hs. eexists. split; [reflexivity|].
  pose proof (pow2_ge_0 x) as HX. pose proof (Rsqr_pos_lt s Hs) as HS.
  replace (s²) with (s ^ 2) in HS by (unfold Rsqr; ring).
  assert (x ^ 2 = 0 ↔ x = 0) as Hx0.
  { split; [|intros ->; ring]. intros H0. nra. }
  set (X := x ^ 2) in *. set (S := s ^ 2) in *. clearbody X S.
  assert (X / (X + S) * (X + S) = X) as Ht by (field; lra).
  set (t := X / (X + S)) in *. clearbody t.
  split_and!; [nra | nra |]. rewrite <- Hx0. split; intros ?; nra.
Qed.

(** The Daehnick formula up to 200 MeV (exact arithmetic): [Vi] is not
    negative and [Vsi] is positive; at zero energy [Vi] is zero and [Vsi]
    is 12; from 1 MeV on both lie strictly between zero and the total
    strength [12 + 0.031 E]. *)
Theorem daehnick_imaginary_depths_range (zt at_ : Z) (E : R) :
  (0 < at_)%Z → 0 <= E <= 200 →
  ∃ vi vsi,
    parameter DAEHNICK "Vi" zt at_ E = Some vi
    ∧ parameter DAEHNICK "Vsi" zt at_ E = Some vsi
    ∧ 0 <= vi ∧ 0 < vsi
    ∧ (E = 0 → vi = 0 ∧ vsi = 12)
    ∧ (1 <= E → 0 < vi < 12 + 0.031 * E ∧ vsi < 12 + 0.031 * E).
Proof.
  intros Hat HE.
  rewrite !(parameter_item _ _ _ _ _ daehnick_items) by (done || lra).
  unfold daehnick_items. cbn [item String.eqb Ascii.eqb Bool.eqb].
  do 2 eexists. split_and!; try reflexivity.
  all: destruct (exp_nonpos (-1.0 * (E * 0.01) ^ 2)) as [Hb Hone]; [nra|].
  - set (b := exp _) in *; clearbody b. nra.
  - set (b := exp _) in *; clearbody b. nra.
  - intros ->. assert (exp (-1.0 * (0 * 0.01) ^ 2) = 1) as ->
      by (apply Hone; lra).
    lra.
  - intros HE1.
    assert (exp (-1.0 * (E * 0.01) ^ 2) <> 1) as Hne
      by (intros H1%Hone; nra).
    set (b := exp _) in *; clearbody b. split; [split|]; nra.
Qed.

Lemma Rpower_ge_1 x y : 1 <= x → y <= 0 → 0 < Rpower x y <= 1.
Proof.
  intros Hx Hy. split; [apply Rpower_pos|].
  rewrite <- (Rpower_O x) by lra. by apply Rle_Rpower.
Qed.

(** The Koning-Delaroche formula on the range it is documented for, up
    to 200 MeV, and a mass number up to 300 (exact arithmetic): [Vi] lies
    strictly between zero and [w1 = 14.667 + 0.009629 at], [Vsoi]
    strictly between -3.1 and zero, [Vso] is positive, and the Coulomb
    radius [rc0] lies between 1.198 and 14.9. *)
Theorem koning_delaroche_proton_depths_range (zt at_ : Z) (E : R) :
  (1 <= at_ <= 300)%Z → 0 <= E <= 200 →
  ∃ vi vso vsoi rc,
    parameter KONING_DELAROCHE_PROTON "Vi" zt at_ E = Some vi
    ∧ parameter KONING_DELAROCHE_PROTON "Vso" zt at_ E = Some vso
    ∧ parameter KONING_DELAROCHE_PROTON "Vsoi" zt at_ E = Some vsoi
    ∧ parameter KONING_DELAROCHE_PROTON "rc0" zt at_ E = Some rc
    ∧ 0 < vi < 14.667 + 0.009629 * IZR at_
    ∧ -3.1 < vsoi < 0
    ∧ 0 < vso
    ∧ 1.198 < rc < 14.9.
Proof.
  intros [Hat Hat'] HE.
  pose proof (IZR_le 1 at_ Hat) as Hx. pose proof (IZR_le at_ 300 Hat') as Hx'.
  rewrite !(parameter_item _ _ _ _ _ koning_delaroche_proton_items)
    by (done || lia).
  unfold koning_delaroche_proton_items.
  cbn [item String.eqb Ascii.eqb Bool.eqb]. cbv zeta.
  set (x := E - (-8.4075 + 0.01378 * IZR at_)).
  assert (0 < x) as Hxpos by (unfold x; lra).
  destruct (lorentzian x (73.55 + 0.0795 * IZR at_))
    as (t1 & Ht1 & H1 & H10); [lra|].
  destruct (lorentzian x 160) as (t2 & Ht2 & H2 & H20); [lra|].
  assert (0 < t1) by (destruct (Req_dec_T t1 0) as [H0%H10|]; lra).
  assert (0 < t2) by (destruct (Req_dec_T t2 0) as [H0%H20|]; lra).
  replace ((14.667 + 0.009629 * IZR at_) * x ^ 2
           / (x ^ 2 + (73.55 + 0.0795 * IZR at_) ^ 2))
    with ((14.667 + 0.009629 * IZR at_) * t1)
    by (rewrite <- Ht1; unfold Rdiv; ring).
  replace (-3.1 * x ^ 2 / (x ^ 2 + 160 ^ 2)) with (-3.1 * t2)
    by (rewrite <- Ht2; unfold Rdiv; ring).
  do 4 eexists. split_and!; try reflexivity; try nra.
  - apply Rmult_lt_0_compat; [lra | apply exp_pos].
  - destruct (Rpower_ge_1 (IZR at_) (-0.666)); [lra..|].
    destruct (Rpower_ge_1 (IZR at_) (-1.666)); [lra..|]. lra.
  - destruct (Rpower_ge_1 (IZR at_) (-0.666)); [lra..|].
    destruct (Rpower_ge_1 (IZR at_) (-1.666)); [lra..|]. lra.
Qed.

(** The Bojowald formula (exact arithmetic): [Vi] is never negative and
    never decreases with the energy, [Vsi] never increases, and [Vi] is
    zero exactly up to 45 MeV. *)
Theorem bojowald_imaginary_depth_monotone (zt at_ : Z) (E E' : R) :
  (0 < at_)%Z → E <= E' →
  ∃ vi vi' vsi vsi',
    parameter BOJOWALD "Vi" zt at_ E = Some vi
    ∧ parameter BOJOWALD "Vi" zt at_ E' = Some vi'
    ∧ parameter BOJOWALD "Vsi" zt at_ E = Some vsi
    ∧ parameter BOJOWALD "Vsi" zt at_ E' = Some vsi'
    ∧ 0 <= vi <= vi' ∧ vsi' <= vsi
    ∧ (vi = 0 ↔ E <= 45).
Proof.
  intros Hat HE.
  rewrite !(parameter_item _ _ _ _ _ bojowald_items) by done.
  unfold bojowald_items. cbn [item String.eqb Ascii.eqb Bool.eqb].
  do 4 eexists. split_and!; try reflexivity.
  all: unfold py_gt; destruct (Rlt_dec 45.0 E), (Rlt_dec 45.0 E'); try lra.
  all: split; intros; lra.
Qed.

Lemma Rpower_below x : 2 <= x → Rpower x 0.999 < 0.9996 * x.
Proof.
  intros Hx.
  assert (Rpower x 0.999 = x * Rpower x (-0.001)) as ->.
  { rewrite <- (Rpower_1 x) at 2 by lra. rewrite <- Rpower_plus.
    f_equal. lra. }
  assert (Rpower x (-0.001) < 0.9996); [|nra].
  unfold Rpower.
  assert (/ 2 < ln x) as Hln.
  { apply Rlt_le_trans with (ln 2); [apply ln_lt_2|].
    destruct Hx as [Hx| <-]; [left; apply ln_increasing; lra | right; done]. }
  apply Rle_lt_trans with (exp (-0.0005)).
  { destruct (Req_dec_T (-0.001 * ln x) (-0.0005)) as [->|Hne]; [lra|].
    left. apply exp_increasing. lra. }
  pose proof (exp_ineq1 0.0005 ltac:(lra)) as Hup.
  pose proof (exp_pos (-0.0005)) as Hpos.
  assert (exp (-0.0005) * exp 0.0005 = 1) as Hprod.
  { rewrite <- exp_plus. replace (-0.0005 + 0.0005) with 0 by lra.
    apply exp_0. }
  nra.
Qed.

(** The local variable [a3] is [at ** 0.333] in four formulas and
    [at ** (1.0 / 3.0)] in the Li-Liang-Cai one.  For a mass number from
    2 to 1000, in exact arithmetic, the cube of the former is below
    [0.9996 at], the cube of the latter is [at] to within [at / 10^9],
    and the former is strictly the smaller; the outputs below show the
    two values. *)
Theorem mass_number_exponent (zt at_ : Z) (E : R) :
  (1 < at_ <= 1000)%Z →
  ∃ a3 c,
    a3 ^ 3 < 0.9996 * IZR at_
    ∧ Rabs (c ^ 3 - IZR at_) <= IZR at_ / 1000000000
    ∧ 0 < a3 < c
    ∧ parameter AN_CAI "a" zt at_ E = Some (0.719 + 0.0126 * a3)
    ∧ (0 <= E →
       parameter DAEHNICK "V" zt at_ E
       = Some (88.0 - 0.283 * E + 0.88 * IZR zt / a3))
    ∧ parameter BOJOWALD "a" zt at_ E = Some (0.636 + 0.035 * a3)
    ∧ parameter KONING_DELAROCHE_PROTON "rsi0" zt at_ E
      = Some (1.3424 - 0.01585 * a3)
    ∧ parameter LI_LIANG_CAI_TRITON "a" zt at_ E
      = Some (0.6833 + 0.0191 * c).
Proof.
  intros [Hat _]. pose proof (IZR_le 2 at_ ltac:(lia)) as Hx.
  exists (Rpower (IZR at_) 0.333), (Rpower (IZR at_) (1.0 / 3.0)).
  split_and!.
  - rewrite <- (Rpower_pow 3) by apply Rpower_pos. rewrite Rpower_mult.
    replace (0.333 * INR 3) with 0.999 by (simpl; lra).
    by apply Rpower_below.
  - rewrite cube_root_cubed by lra.
    replace (IZR at_ - IZR at_) with 0 by lra. rewrite Rabs_R0. lra.
  - apply Rpower_pos.
  - apply Rpower_lt; lra.
  - rewrite (parameter_item _ _ _ _ _ an_cai_items) by (done || lia).
    reflexivity.
  - intros HE.
    rewrite (parameter_item _ _ _ _ _ daehnick_items) by (done || lia).
    reflexivity.
  - rewrite (parameter_item _ _ _ _ _ bojowald_items) by (done || lia).
    reflexivity.
  - rewrite (parameter_item _ _ _ _ _ koning_delaroche_proton_items)
      by (done || lia).
    reflexivity.
  - rewrite (parameter_item _ _ _ _ _ li_liang_cai_triton_items)
      by (done || lia).
    reflexivity.
Qed.

(** The upper end of the energy range each deuteron fit is documented
    for, in MeV. *)
Definition documented_energy : list (string * R) :=
  [ (AN_CAI, 183); (DAEHNICK, 90); (BOJOWALD, 100) ].

(** The three deuteron formulas on a target with [zt >= 0] and
    [at >= 1], at an energy between zero and the upper end of the
    documented range: [V], [Vsi] and [Vso] are positive and [Vi] is not
    negative (exact arithmetic). *)
Theorem deuteron_depths_in_documented_range
    (p : string) (Emax : R) (zt at_ : Z) (E : R) :
  dict_get documented_energy p = Some Emax →
  (0 < at_)%Z → (0 <= zt)%Z → 0 <= E <= Emax →
  ∃ v vi vsi vso,
    parameter p "V" zt at_ E = Some v
    ∧ parameter p "Vi" zt at_ E = Some vi
    ∧ parameter p "Vsi" zt at_ E = Some vsi
    ∧ parameter p "Vso" zt at_ E = Some vso
    ∧ 0 < v ∧ 0 <= vi ∧ 0 < vsi ∧ 0 < vso.
Proof.
  intros Hp Hat Hzt HE.
  pose proof (IZR_le 0 zt Hzt) as Hz.
  pose proof (Rpower_pos (IZR at_) 0.333) as Ha3.
  assert (0 <= IZR zt / Rpower (IZR at_) 0.333) as Hq.
  { apply Rmult_le_pos; [done|]. left. by apply Rinv_0_lt_compat. }
  unfold documented_energy, dict_get in Hp.
  repeat case_decide; try discriminate Hp; injection Hp as <-; subst p.
  - rewrite !(parameter_item _ _ _ _ _ an_cai_items) by done.
    unfold an_cai_items. cbn [item String.eqb Ascii.eqb Bool.eqb].
    do 4 eexists. split_and!; try reflexivity; [|lra..].
    unfold Rdiv in *. rewrite Rmult_assoc. nra.
  - rewrite !(parameter_item _ _ _ _ _ daehnick_items) by (done || lra).
    unfold daehnick_items. cbn [item String.eqb Ascii.eqb Bool.eqb].
    destruct (exp_nonpos (-1.0 * (E * 0.01) ^ 2)) as [Hb _]; [nra|].
    set (b := exp _) in *; clearbody b.
    do 4 eexists. split_and!; try reflexivity; [|nra..].
    unfold Rdiv in *. rewrite Rmult_assoc. nra.
  - rewrite !(parameter_item _ _ _ _ _ bojowald_items) by done.
    unfold bojowald_items. cbn [item String.eqb Ascii.eqb Bool.eqb].
    do 4 eexists. split_and!; try reflexivity.
    all: unfold py_gt; destruct (Rlt_dec 45.0 E); try lra.
    all: unfold Rdiv in *; rewrite ?Rmult_assoc; nra.
Qed.

(** The volume absorption [Vi] of the Li-Liang-Cai formula is a parabola
    in the energy that opens downwards: positive on the range the fit is
    documented for ([E < 40]), negative from 65 MeV on. *)
Theorem li_liang_cai_triton_absorption (zt at_ : Z) (E : R) :
  (0 < at_)%Z →
  ∃ vi,
    parameter LI_LIANG_CAI_TRITON "Vi" zt at_ E = Some vi
    ∧ (0 <= E <= 40 → 7.383 <= vi < 13.9)
    ∧ (65 <= E → vi < 0).
Proof.
  intros Hat.
  rewrite (parameter_item _ _ _ _ _ li_liang_cai_triton_items) by done.
  unfold li_liang_cai_triton_items. cbn [item String.eqb Ascii.eqb Bool.eqb].
  replace (E ^ 2) with (E * E) by ring.
  eexists. split_and!; [reflexivity | intros HE..].
  - assert (0 <= E * (0.5025 - 0.0097 * E))
      by (apply Rmult_le_pos; lra).
    pose proof (Rle_0_sqr (E - 25.9)) as Hsq. unfold Rsqr in Hsq. lra.
  - assert (0 <= (E - 65) * (0.0097 * E - 0.5025))
      by (apply Rmult_le_pos; lra).
    lra.
Qed.

End Ranges.

(** ** The further properties at concrete inputs *)

Section FurtherWitnesses.
Import Exact.
Local Open Scope R_scope.

(** A key of the caller's own survives [bojowald_potential]. *)
Lemma formulas_write_parameter_keys_only_witness :
  (bojowald_potential (A := Exact.arith) 30.0 6 12 {["note" := 1]}).1
    !! "note" = Some 1.
Proof.
  rewrite (proj2 (formulas_write_parameter_keys_only (A := Exact.arith)
                    BOJOWALD bojowald_potential 30.0 6 12 {["note" := 1]}
                    eq_refl)).
  - apply lookup_singleton_eq.
  - computed.
Defined.

Lemma absent_terms_are_zero_witness :
  holds (daehnick_potential (A := Exact.arith) 20.0 20 40 ∅).1 "Vsoi" 0.0.
Proof.
  apply (absent_terms_are_zero (A := Exact.arith) 20.0 20 40 ∅
           (daehnick_potential (A := Exact.arith) 20.0 20 40 ∅).1
           DAEHNICK daehnick_potential
           eq_refl).
  rewrite daehnick_exact by (lia || lra). reflexivity.
Defined.

Lemma energy_independent_outputs_witness :
  parameter KONING_DELAROCHE_PROTON "rc0" 28 58 50
  = parameter KONING_DELAROCHE_PROTON "rc0" 28 58 10.
Proof.
  destruct (parameter_defined KONING_DELAROCHE_PROTON "rc0" 28 58 50)
    as [y Hy]; [by repeat constructor | computed | lia | done |].
  destruct (parameter_defined KONING_DELAROCHE_PROTON "rc0" 28 58 10)
    as [y' Hy']; [by repeat constructor | computed | lia | done |].
  rewrite Hy, Hy'. f_equal.
  apply (energy_independent_outputs KONING_DELAROCHE_PROTON
           ["V"; "Vi"; "Vsi"; "Vso"; "Vsoi"] "rc0" 28 58 50 10);
    [reflexivity | computed | done | done].
Defined.

Lemma charge_independent_outputs_witness :
  parameter BOJOWALD "Vsi" 6 12 50 = parameter BOJOWALD "Vsi" 5 12 50.
Proof.
  apply (charge_independent_outputs BOJOWALD ["V"] "Vsi" 6 5 12 50);
    [reflexivity | computed].
Defined.

Lemma daehnick_imaginary_depths_range_witness :
  ∃ vi vsi,
    parameter DAEHNICK "Vi" 20 40 20 = Some vi
    ∧ parameter DAEHNICK "Vsi" 20 40 20 = Some vsi
    ∧ 0 <= vi ∧ 0 < vsi
    ∧ (20 = 0 → vi = 0 ∧ vsi = 12)
    ∧ (1 <= 20 → 0 < vi < 12 + 0.031 * 20 ∧ vsi < 12 + 0.031 * 20).
Proof.
  apply (daehnick_imaginary_depths_range 20 40 20); [lia | lra].
Defined.

Lemma koning_delaroche_proton_depths_range_witness :
  ∃ vi vso vsoi rc,
    parameter KONING_DELAROCHE_PROTON "Vi" 28 58 50 = Some vi
    ∧ parameter KONING_DELAROCHE_PROTON "Vso" 28 58 50 = Some vso
    ∧ parameter KONING_DELAROCHE_PROTON "Vsoi" 28 58 50 = Some vsoi
    ∧ parameter KONING_DELAROCHE_PROTON "rc0" 28 58 50 = Some rc
    ∧ 0 < vi < 14.667 + 0.009629 * 58
    ∧ -3.1 < vsoi < 0
    ∧ 0 < vso
    ∧ 1.198 < rc < 14.9.
Proof.
  apply (koning_delaroche_proton_depths_range 28 58 50); [lia | lra].
Defined.

Lemma bojowald_imaginary_depth_monotone_witness :
  ∃ vi vi' vsi vsi',
    parameter BOJOWALD "Vi" 6 12 30 = Some vi
    ∧ parameter BOJOWALD "Vi" 6 12 80 = Some vi'
    ∧ parameter BOJOWALD "Vsi" 6 12 30 = Some vsi
    ∧ parameter BOJOWALD "Vsi" 6 12 80 = Some vsi'
    ∧ 0 <= vi <= vi' ∧ vsi' <= vsi
    ∧ (vi = 0 ↔ 30 <= 45).
Proof.
  apply (bojowald_imaginary_depth_monotone 6 12 30 80); [lia | lra].
Defined.

Lemma mass_number_exponent_witness :
  ∃ a3 c,
    a3 ^ 3 < 0.9996 * 40
    ∧ Rabs (c ^ 3 - 40) <= 40 / 1000000000
    ∧ 0 < a3 < c
    ∧ parameter AN_CAI "a" 20 40 20 = Some (0.719 + 0.0126 * a3)
    ∧ (0 <= 20 →
       parameter DAEHNICK "V" 20 40 20
       = Some (88.0 - 0.283 * 20 + 0.88 * 20 / a3))
    ∧ parameter BOJOWALD "a" 20 40 20 = Some (0.636 + 0.035 * a3)
    ∧ parameter KONING_DELAROCHE_PROTON "rsi0" 20 40 20
      = Some (1.3424 - 0.01585 * a3)
    ∧ parameter LI_LIANG_CAI_TRITON "a" 20 40 20
      = Some (0.6833 + 0.0191 * c).
Proof.
  apply (mass_number_exponent 20 40 20). lia.
Defined.

Lemma deuteron_depths_in_documented_range_witness :
  ∃ v vi vsi vso,
    parameter BOJOWALD "V" 6 12 80 = Some v
    ∧ parameter BOJOWALD "Vi" 6 12 80 = Some vi
    ∧ parameter BOJOWALD "Vsi" 6 12 80 = Some vsi
    ∧ parameter BOJOWALD "Vso" 6 12 80 = Some vso
    ∧ 0 < v ∧ 0 <= vi ∧ 0 < vsi ∧ 0 < vso.
Proof.
  apply (deuteron_depths_in_documented_range BOJOWALD 100 6 12 80);
    [reflexivity | lia | lia | lra].
Defined.

Lemma li_liang_cai_triton_absorption_witness :
  ∃ vi,
    parameter LI_LIANG_CAI_TRITON "Vi" 20 48 30 = Some vi
    ∧ (0 <= 30 <= 40 → 7.383 <= vi < 13.9)
    ∧ (65 <= 30 → vi < 0).
Proof. apply (li_liang_cai_triton_absorption 20 48 30). lia. Defined.

End FurtherWitnesses.
